(** * qteasy: cost model, trade step, back-test loop and result pool

    A shallow embedding of [qteasy/finance.py] ([Cost], [CashPlan]), of
    the simulation part of [qteasy/core.py] ([_loop_step], [apply_loop],
    [_merge_invest_dates]) and of the parameter vector of
    [qteasy/operator.py], with the [ResultPool] that the searches of
    [core.py] fill.  The definitions come first, the proofs after them.

    Numbers.  The program computes on numpy [float64] values.  They are
    modelled by exact rationals extended with the three special values
    that numpy produces instead of raising: [+inf], [-inf] and [nan].
    Rounding is therefore not modelled (an equation proved here holds in
    the program up to floating-point rounding), and there is a single
    zero.  Division by zero, [inf - inf], [0 * inf], [np.fmax] ignoring
    [nan], truthiness of [nan] and so on follow IEEE-754 and numpy. *)

From Stdlib Require Import QArith ZArith List Bool Lia Lqa.
From Stdlib Require Import Permutation Sorted String.
Import ListNotations.

Open Scope Q_scope.

(* ================================================================== *)
(** ** Extended rationals standing for float64 *)

Module F.

Inductive fnum : Type :=
| Fin (q : Q)
| PInf
| NInf
| NaN.

Definition finite (x : fnum) : Prop :=
  match x with Fin _ => True | _ => False end.

(** Equality of the modelled numbers: rationals up to [==]. *)
Definition feq (x y : fnum) : Prop :=
  match x, y with
  | Fin a, Fin b => a == b
  | PInf, PInf | NInf, NInf | NaN, NaN => True
  | _, _ => False
  end.

Definition feqb (x y : fnum) : bool :=
  match x, y with
  | Fin a, Fin b => Qeq_bool a b
  | PInf, PInf | NInf, NInf | NaN, NaN => true
  | _, _ => false
  end.

(** Sign of a rational, as an integer in {-1, 0, 1}. *)
Definition Qsgn (q : Q) : Z := Z.sgn (Qnum q).

Definition fneg (x : fnum) : fnum :=
  match x with
  | Fin a => Fin (- a)
  | PInf => NInf
  | NInf => PInf
  | NaN => NaN
  end.

Definition fadd (x y : fnum) : fnum :=
  match x, y with
  | Fin a, Fin b => Fin (a + b)
  | NaN, _ | _, NaN => NaN
  | PInf, NInf | NInf, PInf => NaN
  | PInf, _ | _, PInf => PInf
  | NInf, _ | _, NInf => NInf
  end.

Definition fsub (x y : fnum) : fnum := fadd x (fneg y).

(** An infinity of the sign [s] (an integer sign); [nan] for sign 0. *)
Definition inf_of_sign (s : Z) : fnum :=
  match s with
  | Z0 => NaN
  | Zpos _ => PInf
  | Zneg _ => NInf
  end.

Definition fmul (x y : fnum) : fnum :=
  match x, y with
  | Fin a, Fin b => Fin (a * b)
  | NaN, _ | _, NaN => NaN
  | Fin a, PInf | PInf, Fin a => inf_of_sign (Qsgn a)
  | Fin a, NInf | NInf, Fin a => inf_of_sign (- Qsgn a)
  | PInf, PInf | NInf, NInf => PInf
  | PInf, NInf | NInf, PInf => NInf
  end.

(** numpy division: [x / 0] is a signed infinity, [0 / 0] is [nan]. *)
Definition fdiv (x y : fnum) : fnum :=
  match x, y with
  | Fin a, Fin b =>
      if Qeq_bool b 0 then inf_of_sign (Qsgn a) else Fin (a / b)
  | NaN, _ | _, NaN => NaN
  | Fin _, PInf | Fin _, NInf => Fin 0
  | PInf, Fin b => if Qle_bool 0 b then PInf else NInf
  | NInf, Fin b => if Qle_bool 0 b then NInf else PInf
  | _, _ => NaN
  end.

(** [np.fmax]: the larger argument, a [nan] argument being ignored. *)
Definition fmax (x y : fnum) : fnum :=
  match x, y with
  | NaN, _ => y
  | _, NaN => x
  | PInf, _ | _, PInf => PInf
  | NInf, _ => y
  | _, NInf => x
  | Fin a, Fin b => if Qle_bool a b then Fin b else Fin a
  end.

(** Rounding towards zero of a rational. *)
Definition Qtrunc (q : Q) : Z := Z.quot (Qnum q) (Zpos (Qden q)).

(** [np.trunc]. *)
Definition ftrunc (x : fnum) : fnum :=
  match x with
  | Fin a => Fin (inject_Z (Qtrunc a))
  | _ => x
  end.

(** Truthiness of a float (as in [np.where(x, ..., ...)]): non-zero. *)
Definition truthy (x : fnum) : bool :=
  match x with
  | Fin a => negb (Qeq_bool a 0)
  | _ => true
  end.

(** [x == 0]. *)
Definition is_zero (x : fnum) : bool :=
  match x with
  | Fin a => Qeq_bool a 0
  | _ => false
  end.

(** [np.isinf]. *)
Definition isinf (x : fnum) : bool :=
  match x with
  | PInf | NInf => true
  | _ => false
  end.

(** [np.isnan]. *)
Definition isnan (x : fnum) : bool :=
  match x with
  | NaN => true
  | _ => false
  end.

(** [x > y]; false as soon as one side is [nan]. *)
Definition fgt (x y : fnum) : bool :=
  match x, y with
  | NaN, _ | _, NaN => false
  | Fin a, Fin b => negb (Qle_bool a b)
  | PInf, PInf => false
  | PInf, _ => true
  | _, PInf => false
  | NInf, _ => false
  | _, NInf => true
  end.

(** [x.clip(0)]: values below zero become zero, [nan] stays. *)
Definition clip0 (x : fnum) : fnum :=
  match x with
  | Fin a => if Qle_bool 0 a then Fin a else Fin 0
  | NInf => Fin 0
  | _ => x
  end.

(** Arrays are lists; binary array operations work element by element. *)
Definition vec : Type := list fnum.

Fixpoint zipWith (f : fnum -> fnum -> fnum) (a b : vec) : vec :=
  match a, b with
  | x :: a', y :: b' => f x y :: zipWith f a' b'
  | _, _ => []
  end.

Definition vadd : vec -> vec -> vec := zipWith fadd.
Definition vsub : vec -> vec -> vec := zipWith fsub.
Definition vmul : vec -> vec -> vec := zipWith fmul.
Definition vdiv : vec -> vec -> vec := zipWith fdiv.

(** [np.where(c, a, b)] with an array [a] and a scalar [b]. *)
Definition vwhere (c a : vec) (b : fnum) : vec :=
  zipWith (fun ci ai => if truthy ci then ai else b) c a.

(** [a.sum()]. *)
Definition fsum (a : vec) : fnum := fold_right fadd (Fin 0) a.

(** Pointwise equality of arrays. *)
Fixpoint veqb (a b : vec) : bool :=
  match a, b with
  | [], [] => true
  | x :: a', y :: b' => feqb x y && veqb a' b'
  | _, _ => false
  end.

End F.
Import F.

(* ================================================================== *)
(** ** finance.py: the cost model *)

Record Cost : Type := mkCost {
  buy_fix : fnum;
  sell_fix : fnum;
  buy_rate : fnum;
  sell_rate : fnum;
  buy_min : fnum;
  sell_min : fnum;
  slipage : fnum
}.

(** [Cost.__init__] with its default arguments. *)
Definition default_Cost : Cost :=
  mkCost (Fin 0) (Fin 0) (Fin (3 # 1000)) (Fin (1 # 1000))
         (Fin 5) (Fin 0) (Fin 0).

(** The minimum-fee rate of the selling branch of [Cost.calculate]:
    [-sm / trade_values] with the infinite entries reset to zero. *)
Definition sell_min_rate (sm : fnum) (trade_values : vec) : vec :=
  let min_rate := map (fun tv => fdiv (fneg sm) tv) trade_values in
  map (fun r => if isinf r then Fin 0 else r) min_rate.

(** The minimum-fee rate of the buying branch: [bm / (trade_values - bm)]. *)
Definition buy_min_rate (bm : fnum) (trade_values : vec) : vec :=
  map (fun tv => fdiv bm (fsub tv bm)) trade_values.

(** [Cost.calculate]. *)
Definition calculate (self : Cost) (trade_values : vec)
           (is_buying fixed_fees : bool) : vec :=
  let bf := buy_fix self in
  let sf := sell_fix self in
  let br := buy_rate self in
  let sr := sell_rate self in
  let bm := buy_min self in
  let sm := sell_min self in
  let slp := slipage self in
  if fixed_fees then
    if is_buying then
      map (fun tv => fadd bf (fmul slp (fmul tv tv))) trade_values
    else
      map (fun tv => fadd sf (fmul slp (fmul tv tv))) trade_values
  else
    if is_buying then
      if is_zero bm then
        map (fun tv => fadd br (fmul slp tv)) trade_values
      else
        let min_rate := buy_min_rate bm trade_values in
        vadd (map (fmax br) min_rate) (map (fmul slp) trade_values)
    else
      if is_zero sm then
        map (fun tv => fsub sr (fmul slp tv)) trade_values
      else
        let min_rate := sell_min_rate sm trade_values in
        vadd (map (fmax sr) min_rate) (map (fmul slp) trade_values).

(** [Cost.get_selling_result]. *)
Definition get_selling_result (self : Cost) (prices a_to_sell : vec)
           (moq : fnum) : vec * fnum * fnum :=
  let a_sold :=
    if is_zero moq then a_to_sell
    else map (fun a => fmul (ftrunc (fdiv a moq)) moq) a_to_sell in
  let sold_values := vmul a_sold prices in
  if is_zero (sell_fix self) then
    let rates := calculate self sold_values false false in
    let cash_gained :=
      fsum (vmul (map (fmul (Fin (-1))) sold_values)
                 (map (fsub (Fin 1)) rates)) in
    let fee := fneg (fsum (vmul sold_values rates)) in
    (a_sold, cash_gained, fee)
  else
    let fixed_fees := calculate self sold_values false true in
    let fee := fsum (vwhere a_sold fixed_fees (Fin 0)) in
    let cash_gained := fsub (fneg (fsum sold_values)) fee in
    (a_sold, cash_gained, fee).

(** The three per-instrument arrays of [Cost.get_purchase_result]:
    quantities bought, (negative) cash spent and fees, before the last two
    are summed. *)
Definition purchase_arrays (self : Cost) (prices cash_to_spend : vec)
           (moq : fnum) : vec * vec * vec :=
  if is_zero (buy_fix self) then
    let rates := calculate self cash_to_spend true false in
    let a_purchased :=
      if is_zero moq then
        vwhere prices
               (vdiv cash_to_spend
                     (vmul prices (map (fadd (Fin 1)) rates)))
               (Fin 0)
      else
        vwhere prices
               (map (fun t => fmul (ftrunc t) moq)
                    (vdiv cash_to_spend
                          (vmul (map (fun p => fmul p moq) prices)
                                (map (fadd (Fin 1)) rates))))
               (Fin 0) in
    let fees :=
      vwhere a_purchased
             (map (fun f => fmax f (buy_min self))
                  (vmul (vmul a_purchased prices) rates))
             (Fin 0) in
    let purchased_values := vadd (vmul a_purchased prices) fees in
    let cash_spent :=
      vwhere a_purchased (map (fmul (Fin (-1))) purchased_values) (Fin 0) in
    (a_purchased, cash_spent, fees)
  else
    let fixed_fees := calculate self cash_to_spend true true in
    let a_purchased :=
      if is_zero moq then
        map (fun a => fmax a (Fin 0))
            (vwhere prices
                    (vdiv (vsub cash_to_spend fixed_fees) prices)
                    (Fin 0))
      else
        map (fun a => fmax a (Fin 0))
            (vwhere prices
                    (map (fun t => fmul (ftrunc t) moq)
                         (vdiv (vsub cash_to_spend fixed_fees)
                               (map (fun p => fmul p moq) prices)))
                    (Fin 0)) in
    let cash_spent :=
      vwhere a_purchased
             (vsub (vmul (map (fmul (Fin (-1))) a_purchased) prices)
                   fixed_fees)
             (Fin 0) in
    (a_purchased, cash_spent, vwhere a_purchased fixed_fees (Fin 0)).

(** [Cost.get_purchase_result]. *)
Definition get_purchase_result (self : Cost) (prices cash_to_spend : vec)
           (moq : fnum) : vec * fnum * fnum :=
  let '(a_purchased, cash_spent, fees) :=
    purchase_arrays self prices cash_to_spend moq in
  (a_purchased, fsum cash_spent, fsum fees).

(* ================================================================== *)
(** ** Element-wise reading of the array code

    Every array expression of [Cost] acts on each instrument separately.
    The scalar functions below are what one instrument sees; the lemmas
    after them show that the array code above maps them over its input. *)

(** One entry of [Cost.calculate]. *)
Definition calculate1 (self : Cost) (is_buying fixed_fees : bool)
           (tv : fnum) : fnum :=
  if fixed_fees then
    if is_buying then fadd (buy_fix self) (fmul (slipage self) (fmul tv tv))
    else fadd (sell_fix self) (fmul (slipage self) (fmul tv tv))
  else if is_buying then
    if is_zero (buy_min self) then
      fadd (buy_rate self) (fmul (slipage self) tv)
    else
      fadd (fmax (buy_rate self)
                 (fdiv (buy_min self) (fsub tv (buy_min self))))
           (fmul (slipage self) tv)
  else
    if is_zero (sell_min self) then
      fsub (sell_rate self) (fmul (slipage self) tv)
    else
      let r := fdiv (fneg (sell_min self)) tv in
      fadd (fmax (sell_rate self) (if isinf r then Fin 0 else r))
           (fmul (slipage self) tv).

(** One instrument of [Cost.get_purchase_result]: price [p], budget [c]. *)
Definition purchase1 (self : Cost) (moq p c : fnum) : fnum * fnum * fnum :=
  if is_zero (buy_fix self) then
    let r := calculate1 self true false c in
    let a :=
      if truthy p then
        if is_zero moq then fdiv c (fmul p (fadd (Fin 1) r))
        else fmul (ftrunc (fdiv c (fmul (fmul p moq) (fadd (Fin 1) r)))) moq
      else Fin 0 in
    let fee :=
      if truthy a then fmax (fmul (fmul a p) r) (buy_min self) else Fin 0 in
    let spent :=
      if truthy a then fmul (Fin (-1)) (fadd (fmul a p) fee) else Fin 0 in
    (a, spent, fee)
  else
    let ff := calculate1 self true true c in
    let a :=
      fmax (if truthy p then
              if is_zero moq then fdiv (fsub c ff) p
              else fmul (ftrunc (fdiv (fsub c ff) (fmul p moq))) moq
            else Fin 0) (Fin 0) in
    (a,
     if truthy a then fsub (fmul (fmul (Fin (-1)) a) p) ff else Fin 0,
     if truthy a then ff else Fin 0).

(** One instrument of the quantity sold by [Cost.get_selling_result]. *)
Definition sold1 (moq a : fnum) : fnum :=
  if is_zero moq then a else fmul (ftrunc (fdiv a moq)) moq.

(* ================================================================== *)
(** ** core.py: tables, failures *)

(** Dates are day numbers. *)
Definition date : Type := Z.

(** Why a [TypeError] is raised: a call passes a keyword that names no
    parameter of the callee, or leaves a parameter without a value. *)
Inductive type_error : Type :=
| UnexpectedKeyword (callee keyword : string)
| MissingArgument (callee parameter : string).

(** What a call can end with instead of a value.  A [KeyError] of [.loc]
    carries the labels that the index lacks. *)
Inductive error : Type :=
| AssertionError (msg : string)
| TypeError (why : type_error)
| ValueError (msg : string)
| KeyError (missing : list date)
| RaisedBy (callee : string).

Inductive result (A : Type) : Type :=
| Ok (a : A)
| Raise (e : error).
Arguments Ok {A} a.
Arguments Raise {A} e.

Definition bind {A B : Type} (r : result A) (k : A -> result B) : result B :=
  match r with
  | Ok a => k a
  | Raise e => Raise e
  end.

Notation "x <- r ;; k" := (bind r (fun x => k))
  (at level 61, r at next level, right associativity).

(** A date-indexed [DataFrame] of floats: the number of its columns and
    its rows in index order. *)
Record DataFrame : Type := mkDataFrame {
  ncols : nat;
  rows : list (date * vec)
}.

Definition index (df : DataFrame) : list date := map fst (rows df).
Definition values (df : DataFrame) : list vec := map snd (rows df).

(** [df.empty]: no row or no column. *)
Definition empty (df : DataFrame) : bool :=
  (Nat.eqb (List.length (rows df)) 0) || (Nat.eqb (ncols df) 0).

Definition has_label (d : date) (rs : list (date * vec)) : bool :=
  existsb (fun r => Z.eqb (fst r) d) rs.

(** [df.loc[d] = 0] for a label [d] that the index lacks: a new last row
    of zeros. *)
Definition append_zero_row (df : DataFrame) (d : date) : DataFrame :=
  mkDataFrame (ncols df) (rows df ++ [(d, repeat (Fin 0) (ncols df))]).

Fixpoint insert_row (r : date * vec) (rs : list (date * vec))
  : list (date * vec) :=
  match rs with
  | [] => [r]
  | r' :: rs' =>
      if Z.leb (fst r) (fst r') then r :: rs
      else r' :: insert_row r rs'
  end.

(** [df.sort_index()]. *)
Definition sort_index (df : DataFrame) : DataFrame :=
  mkDataFrame (ncols df) (fold_right insert_row [] (rows df)).

(** [df.fillna(0)]. *)
Definition fillna0 (df : DataFrame) : DataFrame :=
  mkDataFrame (ncols df)
    (map (fun r => (fst r, map (fun x => if isnan x then Fin 0 else x)
                               (snd r)))
         (rows df)).

(** [df.loc[labels]] for a list of labels, as pandas has it since version
    1.0 (the change that the warning quoted at this call in [apply_loop]
    announces): a label that the index lacks is an error, a [KeyError]
    that names the missing labels; otherwise the rows of each label, in
    the order of the labels. *)
Definition loc (df : DataFrame) (labels : list date)
  : result (list (date * vec)) :=
  match filter (fun d => negb (has_label d (rows df))) labels with
  | [] =>
      Ok (flat_map (fun d => filter (fun r => Z.eqb (fst r) d) (rows df))
                   labels)
  | missing => Raise (KeyError missing)
  end.

(** [CashPlan]: the frame [_cash_plan] of amounts indexed by date, which
    the constructor sorts by date. *)
Record CashPlan : Type := mkCashPlan {
  plan : list (date * fnum)
}.

Definition dates (cp : CashPlan) : list date := map fst (plan cp).
Definition amounts (cp : CashPlan) : list fnum := map snd (plan cp).

Fixpoint insert_event (e : date * fnum) (es : list (date * fnum))
  : list (date * fnum) :=
  match es with
  | [] => [e]
  | e' :: es' =>
      if Z.leb (fst e) (fst e') then e :: es
      else e' :: insert_event e es'
  end.

(** [CashPlan.__init__] on a list of dates and a list of amounts. *)
Definition CashPlan_init (ds : list date) (ams : list fnum)
  : result CashPlan :=
  if negb (forallb (fun a => fgt a (Fin 0)) ams) then
    Raise (AssertionError "InputError: Investment amount should be larger than 0")
  else if negb (Nat.eqb (List.length ams) (List.length ds)) then
    Raise (AssertionError "InputError: number of amounts should be equal to that of dates")
  else Ok (mkCashPlan (fold_right insert_event [] (combine ds ams))).

(** The amount that a cash plan invests on day [d], if any. *)
Definition invested_on (cp : CashPlan) (d : date) : option fnum :=
  option_map snd (find (fun e => Z.eqb (fst e) d) (plan cp)).

(** [dict(zip(keys, amounts))[i]]: the last amount filed under key [i]. *)
Fixpoint dict_get (kvs : list (nat * fnum)) (i : nat) : option fnum :=
  match kvs with
  | [] => None
  | (k, v) :: kvs' =>
      match dict_get kvs' i with
      | Some w => Some w
      | None => if Nat.eqb k i then Some v else None
      end
  end.

(** [CashPlan.to_dict(keys)]. *)
Definition to_dict (cp : CashPlan) (keys : list nat) : result (list (nat * fnum)) :=
  if Nat.eqb (List.length keys) (List.length (amounts cp))
  then Ok (combine keys (amounts cp))
  else Raise (AssertionError "InputError, count of elements in keys").

(** [np.searchsorted(a, v)] for one value [v] and a sorted [a]: the number
    of entries below [v]. *)
Fixpoint searchsorted (a : list date) (v : date) : nat :=
  match a with
  | [] => 0
  | x :: a' => if Z.ltb x v then S (searchsorted a' v) else 0
  end.

(** One row of the table that [apply_loop] returns. *)
Record TraceRow : Type := mkTraceRow {
  r_date : date;
  r_amounts : vec;
  r_cash : fnum;
  r_fee : fnum;
  r_value : fnum
}.

(** The body of the loop of [_merge_invest_dates]: reading [op_list.loc[d]]
    fails for a date that the index lacks, and a row of zeros is then
    added for it. *)
Definition merge_step (op_list : DataFrame) (d : date) : DataFrame :=
  if has_label d (rows op_list) then op_list else append_zero_row op_list d.

(** [_merge_invest_dates]. *)
Definition _merge_invest_dates (op_list : DataFrame) (invest : CashPlan)
  : DataFrame :=
  let op_list := fold_left merge_step (dates invest) op_list in
  sort_index op_list.

(** The day counts and the cash growth factors that [apply_loop] prepares
    when [inflation_rate > 0]. *)
Fixpoint days_difference_from (prev : date) (ds : list date) : list Z :=
  match ds with
  | [] => []
  | d :: ds' => (d - prev)%Z :: days_difference_from d ds'
  end.

Definition days_difference (looped_dates : list date) : list Z :=
  match looped_dates with
  | [] => []
  | d :: ds => 0%Z :: days_difference_from d ds
  end.

Definition inflation_factors (inflation_rate : fnum)
           (looped_dates : list date) : vec :=
  map (fun n => fadd (Fin 1)
                     (fdiv (fmul (Fin (inject_Z n)) inflation_rate)
                           (Fin 250)))
      (days_difference looped_dates).

(* ================================================================== *)
(** ** Calls by keyword

    [_loop_step] calls the two methods of [Cost] with keyword arguments
    only.  Python binds such a call to the parameters of the method by
    name: a keyword that names no parameter is a [TypeError], and so is a
    parameter that has neither an argument nor a default. *)

(** The parameters of a method after [self]: names and defaults. *)
Definition signature (V : Type) : Type := list (string * option V).

(** What a call passes for the parameter [p]: the keyword argument of
    that name, or else the default. *)
Definition bound_value {V : Type} (kwargs : list (string * V))
           (p : string * option V) : option V :=
  match find (fun kw => String.eqb (fst kw) (fst p)) kwargs with
  | Some kw => Some (snd kw)
  | None => snd p
  end.

(** The binding of [fname(k1=v1, ...)]: the values of the parameters in
    the order of the signature.  The first keyword that names no
    parameter is reported, else the first parameter without a value. *)
Definition bind_keywords {V : Type} (fname : string) (sig : signature V)
           (kwargs : list (string * V)) : result (list V) :=
  match find (fun kw => negb (existsb (String.eqb (fst kw)) (map fst sig)))
             kwargs with
  | Some kw =>
      Raise (TypeError (UnexpectedKeyword fname (fst kw)))
  | None =>
      match find (fun p => match bound_value kwargs p with
                           | None => true
                           | Some _ => false
                           end) sig with
      | Some p =>
          Raise (TypeError (MissingArgument fname (fst p)))
      | None =>
          Ok (flat_map (fun p => match bound_value kwargs p with
                                 | Some v => [v]
                                 | None => []
                                 end) sig)
      end
  end.

(** The arguments of the methods of [Cost]: arrays and numbers. *)
Inductive pyval : Type :=
| Arr (v : vec)
| Num (x : fnum).

(** [def get_selling_result(self, prices, a_to_sell, moq=0.)]. *)
Definition get_selling_result_sig : signature pyval :=
  [("prices", None); ("a_to_sell", None); ("moq", Some (Num (Fin 0)))]%string.

(** [def get_purchase_result(self, prices, cash_to_spend, moq)]. *)
Definition get_purchase_result_sig : signature pyval :=
  [("prices", None); ("cash_to_spend", None); ("moq", None)]%string.

(** [rate.get_selling_result(k1=v1, ...)].  Arguments other than two
    arrays and a number are outside the model of the method. *)
Definition call_get_selling_result (rate : Cost)
           (kwargs : list (string * pyval)) : result (vec * fnum * fnum) :=
  args <- bind_keywords "get_selling_result" get_selling_result_sig kwargs ;;
  match args with
  | [Arr prices; Arr a_to_sell; Num moq] =>
      Ok (get_selling_result rate prices a_to_sell moq)
  | _ => Raise (RaisedBy "get_selling_result")
  end.

(** [rate.get_purchase_result(k1=v1, ...)]. *)
Definition call_get_purchase_result (rate : Cost)
           (kwargs : list (string * pyval)) : result (vec * fnum * fnum) :=
  args <- bind_keywords "get_purchase_result" get_purchase_result_sig kwargs ;;
  match args with
  | [Arr prices; Arr cash_to_spend; Num moq] =>
      Ok (get_purchase_result rate prices cash_to_spend moq)
  | _ => Raise (RaisedBy "get_purchase_result")
  end.

(* ================================================================== *)
(** ** core.py: the trade step and the back-test loop *)

(** A binary operation of two arrays under numpy's broadcasting: arrays
    of one length element by element, an array of length one against
    every element of the other, and a [ValueError] otherwise. *)
Definition broadcast (f : fnum -> fnum -> fnum) (a b : vec) : result vec :=
  if Nat.eqb (List.length a) (List.length b) then Ok (zipWith f a b)
  else if Nat.eqb (List.length a) 1 then Ok (map (f (hd NaN a)) b)
  else if Nat.eqb (List.length b) 1 then Ok (map (fun x => f x (hd NaN b)) a)
  else Raise (ValueError "operands could not be broadcast together").

(** [_loop_step] (without its printing).  The keywords are those of the
    source: [op] and [amounts] in the sale, [op] and [pur_values] in the
    purchase. *)
Definition _loop_step (pre_cash : fnum) (pre_amounts op prices : vec)
           (rate : Cost) (moq : fnum) : result (fnum * vec * fnum * fnum) :=
  held_values <- broadcast fmul pre_amounts prices ;;
  let pre_value := fadd pre_cash (fsum held_values) in
  sold <- call_get_selling_result rate
            [("prices", Arr prices); ("op", Arr op);
             ("amounts", Arr pre_amounts)]%string ;;
  let '(amount_sold, cash_gained, fee_selling) := sold in
  let cash := fadd pre_cash cash_gained in
  let pur_values := map (fmul pre_value) (map clip0 op) in
  let pur_values :=
    if fgt (fsum pur_values) cash then
      map (fun v => fmul (fdiv v (fsum pur_values)) cash) pur_values
    else pur_values in
  bought <- call_get_purchase_result rate
              [("prices", Arr prices); ("op", Arr op);
               ("pur_values", Arr pur_values); ("moq", Num moq)]%string ;;
  let '(amount_purchased, cash_spent, fee_buying) := bought in
  let fee := fadd fee_buying fee_selling in
  amounts <- broadcast fadd pre_amounts amount_purchased ;;
  amounts <- broadcast fadd amounts amount_sold ;;
  let cash := fadd cash cash_spent in
  new_values <- broadcast fmul amounts prices ;;
  let value := fadd (fsum new_values) cash in
  Ok (cash, amounts, fee, value).

(** The cash that period [i] of [apply_loop] hands to [_loop_step]: the
    cash left by the previous period, grown by the period's factor when
    [inflation_rate > 0], then raised by the amount invested on that
    day. *)
Definition period_cash (inflation_rate : fnum) (factors : vec)
           (investment_date_pos : list nat) (invest_dict : list (nat * fnum))
           (i : nat) (cash : fnum) : fnum :=
  let cash :=
    if fgt inflation_rate (Fin 0) then fmul cash (nth i factors NaN)
    else cash in
  if existsb (Nat.eqb i) investment_date_pos then
    match dict_get invest_dict i with
    | Some a => fadd cash a
    | None => cash
    end
  else cash.

(** The [for i in range(op_count)] loop of [apply_loop], from period [i]
    on, with the current cash and holdings: it ends with the first
    period whose step raises. *)
Fixpoint loop (inflation_rate : fnum) (factors : vec)
         (investment_date_pos : list nat) (invest_dict : list (nat * fnum))
         (cost_rate : Cost) (moq : fnum)
         (i : nat) (todo : list (date * vec * vec))
         (cash : fnum) (holdings : vec) : result (list TraceRow) :=
  match todo with
  | [] => Ok []
  | (d, op_i, price_i) :: todo' =>
      let cash :=
        period_cash inflation_rate factors investment_date_pos invest_dict
                    i cash in
      stepped <- _loop_step cash holdings op_i price_i cost_rate moq ;;
      let '(cash, holdings, fee, value) := stepped in
      later <- loop inflation_rate factors investment_date_pos invest_dict
                    cost_rate moq (S i) todo' cash holdings ;;
      Ok (mkTraceRow d holdings cash fee value :: later)
  end.

(** [apply_loop] (without its printing).  The periods pair row [i] of the
    signals with row [i] of the prices; the table of the result needs as
    many holdings in a row as the signal table has columns. *)
Definition apply_loop (op_list history_list : DataFrame)
           (cash_plan : option CashPlan) (cost_rate : option Cost)
           (moq inflation_rate : fnum) : result (list TraceRow) :=
  if empty op_list then
    Raise (AssertionError "InputError: The Operation list should not be Empty")
  else
  match cost_rate with
  | None => Raise (AssertionError "TypeError: cost_rate should not be None type")
  | Some cost_rate =>
  match cash_plan with
  | None => Raise (AssertionError "ValueError: cash plan should not be None type")
  | Some cash_plan =>
      let op_list := _merge_invest_dates op_list cash_plan in
      let op := values op_list in
      price_rows <- loc (fillna0 history_list) (index op_list) ;;
      let price := map snd price_rows in
      let looped_dates := index op_list in
      let factors := inflation_factors inflation_rate looped_dates in
      let investment_date_pos :=
        map (searchsorted looped_dates) (dates cash_plan) in
      invest_dict <- to_dict cash_plan investment_date_pos ;;
      trace <- loop inflation_rate factors investment_date_pos invest_dict
                    cost_rate moq 0
                    (combine (combine looped_dates op) price)
                    (Fin 0) (repeat (Fin 0) (ncols history_list)) ;;
      if forallb (fun r => Nat.eqb (List.length (r_amounts r)) (ncols op_list))
                 trace
      then Ok trace
      else Raise (ValueError "Shape of passed values")
  end
  end.

(* ================================================================== *)
(** ** space.py: the result pool

    [core.py] imports [ResultPool] from [space.py] and uses its
    constructor, [in_pool], [cut], [pars] and [perfs]. *)

Module ResultPool.
Section Pool.

Variables par score : Type.
Variable entry_eq_dec : forall x y : par * score, {x = y} + {x <> y}.

(** [leb s1 s2]: the score [s1] is at most the score [s2]. *)
Variable leb : score -> score -> bool.

(** Modelled from the spec: the class [ResultPool] of [space.py], which is
    not among the sources.  A pool has a configured capacity and holds
    (parameter vector, score) entries. *)
Record t : Type := mk {
  capacity : nat;
  entries : list (par * score)
}.

(** Modelled from the spec: the constructor of [ResultPool] ([space.py] is
    missing); a pool is created empty, once per search. *)
Definition new (capacity : nat) : t := mk capacity [].

(** Modelled from the spec: [ResultPool.in_pool] ([space.py] is missing).
    The pool counts distinct entries, so an entry that it already holds
    is not added again. *)
Definition in_pool (p : t) (item : par) (perf : score) : t :=
  if in_dec entry_eq_dec (item, perf) (entries p) then p
  else mk (capacity p) (entries p ++ [(item, perf)]).

(** Modelled from the spec: the ranking used by [ResultPool.cut]
    ([space.py] is missing): [worse_eqb keep_largest e1 e2] says that [e1]
    is no better than [e2], where better means a higher score when
    maximizing and a lower score when minimizing. *)
Definition worse_eqb (keep_largest : bool) (e1 e2 : par * score) : bool :=
  if keep_largest then leb (snd e1) (snd e2) else leb (snd e2) (snd e1).

(** Modelled from the spec: placing one entry in a ranked list, for
    [ResultPool.cut] ([space.py] is missing). *)
Fixpoint insert_ranked (keep_largest : bool) (e : par * score)
         (l : list (par * score)) : list (par * score) :=
  match l with
  | [] => [e]
  | e' :: l' =>
      if worse_eqb keep_largest e e' then e :: l
      else e' :: insert_ranked keep_largest e l'
  end.

(** Modelled from the spec: the order in which a trimmed [ResultPool]
    holds its entries ([space.py] is missing): sorted by score, best
    last. *)
Definition rank (keep_largest : bool) (l : list (par * score))
  : list (par * score) :=
  fold_right (insert_ranked keep_largest) [] l.

(** Modelled from the spec: [ResultPool.cut] ([space.py] is missing): trim
    to capacity, keeping the best-scoring entries, sorted by score. *)
Definition cut (p : t) (keep_largest : bool) : t :=
  let ranked := rank keep_largest (entries p) in
  mk (capacity p) (skipn (List.length ranked - capacity p) ranked).

(** Modelled from the spec: [ResultPool.pars] ([space.py] is missing): the
    ranked parameter vectors of the search result. *)
Definition pars (p : t) : list par := map fst (entries p).

(** Modelled from the spec: [ResultPool.perfs] ([space.py] is missing):
    the scores of the search result, parallel to [pars]. *)
Definition perfs (p : t) : list score := map snd (entries p).

(** Modelled from the spec: a sequence of calls of [ResultPool.in_pool]
    ([space.py] is missing), one for each (vector, score) pair, in
    order. *)
Definition in_pool_all (p : t) (l : list (par * score)) : t :=
  fold_left (fun p e => in_pool p (fst e) (snd e)) l p.

End Pool.

Arguments capacity {par score} _.
Arguments entries {par score} _.
Arguments new {par score} capacity.
Arguments in_pool {par score} entry_eq_dec p item perf.
Arguments worse_eqb {par score} leb keep_largest e1 e2.
Arguments insert_ranked {par score} leb keep_largest e l.
Arguments rank {par score} leb keep_largest l.
Arguments cut {par score} leb p keep_largest.
Arguments pars {par score} p.
Arguments perfs {par score} p.
Arguments in_pool_all {par score} entry_eq_dec p l.

End ResultPool.

(** Entries with a natural number for the parameter vector and an integer
    score, used in examples. *)
Definition nat_Z_eq_dec (x y : nat * Z) : {x = y} + {x <> y}.
Proof. decide equality; [apply Z.eq_dec | apply Nat.eq_dec]. Defined.

(* ================================================================== *)
(** ** operator.py: the parameter vector of a search

    [_get_parameter_performance] hands every candidate vector to
    [Operator.set_opt_par], and the searches build their space from
    [Operator.opt_space_par].  Of a strategy only what these two read is
    kept; [Strategy.set_pars] belongs to the strategy layer, so that the
    model of [set_opt_par] gives the calls of [set_pars] that it makes. *)

Module Operator.

Record Strategy (bound : Type) : Type := mkStrategy {
  opt_tag : Z;
  par_count : nat;
  par_boes : list bound;
  par_types : list string
}.
Arguments mkStrategy {bound} _ _ _ _.
Arguments opt_tag {bound} _.
Arguments par_count {bound} _.
Arguments par_boes {bound} _.
Arguments par_types {bound} _.

(** What [set_opt_par] passes to [set_pars]: the slice [opt_par[s:k]] or
    the single entry [opt_par[s]]. *)
Inductive pars_arg (A : Type) : Type :=
| Slice (l : list A)
| Item (a : A).
Arguments Slice {A} l.
Arguments Item {A} a.

(** The entries of the parameter vector that an argument carries. *)
Definition arg_entries {A : Type} (x : pars_arg A) : list A :=
  match x with
  | Slice l => l
  | Item a => [a]
  end.

(** The loop of [set_opt_par] from the strategy at position [pos] on, with
    the counters [s] and [k]: the calls [(position, argument)] of
    [set_pars], or [None] when [opt_par[s]] is out of range. *)
Fixpoint set_opt_par_loop {bound A : Type} (pos s k : nat)
         (strategies : list (Strategy bound)) (opt_par : list A)
  : option (list (nat * pars_arg A)) :=
  match strategies with
  | [] => Some []
  | stg :: rest =>
      if Z.eqb (opt_tag stg) 0 then
        set_opt_par_loop (S pos) s k rest opt_par
      else if Z.eqb (opt_tag stg) 1 then
        let k := (k + par_count stg)%nat in
        match set_opt_par_loop (S pos) k k rest opt_par with
        | Some calls =>
            Some ((pos, Slice (firstn (k - s) (skipn s opt_par))) :: calls)
        | None => None
        end
      else if Z.eqb (opt_tag stg) 2 then
        let k := (k + 1)%nat in
        match nth_error opt_par s with
        | Some a =>
            match set_opt_par_loop (S pos) k k rest opt_par with
            | Some calls => Some ((pos, Item a) :: calls)
            | None => None
            end
        | None => None
        end
      else set_opt_par_loop (S pos) s k rest opt_par
  end.

(** [Operator.set_opt_par], as a function of the strategies and of the
    vector. *)
Definition set_opt_par {bound A : Type} (strategies : list (Strategy bound))
           (opt_par : list A) : option (list (nat * pars_arg A)) :=
  set_opt_par_loop 0 0 0 strategies opt_par.

(** An entry of the ranges of [opt_space_par]: one bound of a strategy, or
    all the bounds of a strategy as one enumeration. *)
Inductive space_range (bound : Type) : Type :=
| Range (b : bound)
| Enum (bs : list bound).
Arguments Range {bound} b.
Arguments Enum {bound} bs.

(** [Operator.opt_space_par]: the ranges and the types of the space. *)
Fixpoint opt_space_par {bound : Type} (strategies : list (Strategy bound))
  : list (space_range bound) * list string :=
  match strategies with
  | [] => ([], [])
  | stg :: rest =>
      let '(ranges, types) := opt_space_par rest in
      if Z.eqb (opt_tag stg) 0 then (ranges, types)
      else if Z.eqb (opt_tag stg) 1 then
        (map Range (par_boes stg) ++ ranges, par_types stg ++ types)
      else if Z.eqb (opt_tag stg) 2 then
        (Enum (par_boes stg) :: ranges, "enum"%string :: types)
      else (ranges, types)
  end.

(** The number of entries of a parameter vector that the strategies take
    up: [par_count] for a strategy tagged 1, one for a strategy tagged
    2. *)
Fixpoint taken_up {bound : Type} (strategies : list (Strategy bound)) : nat :=
  match strategies with
  | [] => 0
  | stg :: rest =>
      (if Z.eqb (opt_tag stg) 1 then par_count stg
       else if Z.eqb (opt_tag stg) 2 then 1
       else 0) + taken_up rest
  end.

(** The positions of the strategies that take part in a search. *)
Fixpoint tagged_from {bound : Type} (pos : nat)
         (strategies : list (Strategy bound)) : list nat :=
  match strategies with
  | [] => []
  | stg :: rest =>
      if Z.eqb (opt_tag stg) 1 || Z.eqb (opt_tag stg) 2
      then pos :: tagged_from (S pos) rest
      else tagged_from (S pos) rest
  end.

End Operator.

(* ================================================================== *)
(** ** finance.py: the methods of CashPlan *)

(** [x <= y]; false as soon as one side is [nan]. *)
Definition fle (x y : fnum) : bool :=
  negb (isnan x) && negb (isnan y) && negb (fgt x y).

(** [np.minimum] of two floats: a [nan] argument gives [nan]. *)
Definition fmin (x y : fnum) : fnum :=
  match x, y with
  | NaN, _ | _, NaN => NaN
  | _, _ => if fgt x y then y else x
  end.

(** A finite, positive amount. *)
Definition pos_fin (a : fnum) : Prop := exists q, a = Fin q /\ 0 < q.

Module CashPlanOps.

(** A [CashPlan] object: the frame [_cash_plan] and the rate [_ir]. *)
Record t : Type := mk {
  frame : CashPlan;
  ir : fnum
}.

(** [CashPlan.__init__] on a list of dates, the amounts and the interest
    rate.  The amounts are checked to be positive when they come as a
    Python list, and not when they come as an array. *)
Definition init (amounts_is_list : bool) (ds : list date) (ams : list fnum)
           (interest_rate : fnum) : result t :=
  if amounts_is_list && negb (forallb (fun a => fgt a (Fin 0)) ams) then
    Raise (AssertionError "InputError: Investment amount should be larger than 0")
  else if negb (Nat.eqb (List.length ams) (List.length ds)) then
    Raise (AssertionError "InputError: number of amounts should be equal to that of dates")
  else if negb (fle (Fin 0) interest_rate && fle interest_rate (Fin 1)) then
    Raise (AssertionError "InputError, interest rate should be between 0 and 100%")
  else
    Ok (mk (mkCashPlan (fold_right insert_event [] (combine ds ams)))
           interest_rate).

(** [first_day] and [last_day]; [None] stands for the [IndexError] of an
    empty plan. *)
Definition first_day (p : t) : option date := hd_error (dates (frame p)).

Definition last_day (p : t) : option date :=
  match dates (frame p) with
  | [] => None
  | d :: ds => Some (last ds d)
  end.

(** [period], in days. *)
Definition period (p : t) : option Z :=
  match last_day p, first_day p with
  | Some l, Some f => Some (l - f)%Z
  | _, _ => None
  end.

(** [investment_count]. *)
Definition investment_count (p : t) : nat := List.length (dates (frame p)).

(** [total]: the sum of the amounts, which skips [nan]. *)
Definition total (p : t) : fnum :=
  fsum (filter (fun a => negb (isnan a)) (amounts (frame p))).

(** [CashPlan.__mul__] with a number. *)
Definition mul (p : t) (other : fnum) : result t :=
  if negb (fle (Fin 0) other) then Raise (AssertionError "other >= 0")
  else init true (dates (frame p))
            (map (fun a => fmul a other) (amounts (frame p))) (ir p).

(** [np.min] of a non-empty list. *)
Definition np_min (x : fnum) (l : list fnum) : fnum := fold_left fmin l x.

(** [CashPlan.__add__] with a number. *)
Definition add_number (p : t) (other : fnum) : result t :=
  match amounts (frame p) with
  | [] => Raise (RaisedBy "np.min")
  | a :: rest =>
      let min_amount := np_min a rest in
      if negb (fgt other (fneg min_amount)) then
        Raise (AssertionError "ValueError, the amount will cause illegal invest value in plan")
      else init false (dates (frame p))
                (map (fun a => fadd a other) (amounts (frame p))) (ir p)
  end.

(** [range(n)] for an integer [n]. *)
Definition range (n : Z) : list Z := map Z.of_nat (seq 0 (Z.to_nat n)).

(** [l * n] for a Python list [l] and an integer [n]. *)
Definition list_times {A : Type} (l : list A) (n : Z) : list A :=
  List.concat (repeat l (Z.to_nat n)).

(** The spacing of the repetitions of a plan of more than two
    investments. *)
Definition time_offset (period : Z) : Z :=
  if Z.leb period 28 then 31
  else if Z.leb period 90 then 93
  else if Z.leb period 365 then 365
  else (365 * (period / 365 + 1))%Z.

(** [CashPlan.__rmul__] with an integer. *)
Definition rmul_int (other : Z) (p : t) : result t :=
  if negb (Z.ltb 1 other) then Raise (AssertionError "other > 1")
  else if Nat.eqb (investment_count p) 1 then
    match first_day p with
    | None => Raise (RaisedBy "IndexError")
    | Some fd =>
        init true (map (fun i => (fd + 365 * i)%Z) (range other))
             (list_times (amounts (frame p)) other) (ir p)
    end
  else
    match period p with
    | None => Raise (RaisedBy "IndexError")
    | Some prd =>
        let time_offset :=
          if Nat.eqb (investment_count p) 2 then (prd * 2)%Z
          else time_offset prd in
        let original_dates := dates (frame p) in
        let new_dates :=
          original_dates ++
          List.concat
            (map (fun i => map (fun d => (d + time_offset * (i + 1) + 1)%Z)
                               original_dates)
                 (range (other - 1))) in
        init true new_dates (list_times (amounts (frame p)) other) (ir p)
    end.

(** Whether the labels of an index are all different. *)
Fixpoint is_unique (l : list date) : bool :=
  match l with
  | [] => true
  | d :: l' => negb (existsb (Z.eqb d) l') && is_unique l'
  end.

(** One entry of [plan.reindex(index).fillna(0)], for a plan whose dates
    are all different: the amount that the plan has on the date [d], and
    zero when it has none or has [nan]. *)
Definition amount_or_zero (es : list (date * fnum)) (d : date) : fnum :=
  match find (fun e => Z.eqb (fst e) d) es with
  | Some e => if isnan (snd e) then Fin 0 else snd e
  | None => Fin 0
  end.

(** The column [amount] of [plan.reindex(index).fillna(0)]. *)
Definition reindex_fillna0 (es : list (date * fnum)) (idx : list date) : vec :=
  map (amount_or_zero es) idx.

(** [CashPlan.__add__] with another plan.  [set] gives the dates of both
    plans, each once, in an order that [sort_index] then replaces by the
    order of the dates; [reindex] raises on a plan in which a date occurs
    twice. *)
Definition add_plan (p other : t) : result t :=
  let plan1 := plan (frame p) in
  let plan2 := plan (frame other) in
  let index_combo :=
    nodup Z.eq_dec (dates (frame p) ++ dates (frame other)) in
  if negb (is_unique (dates (frame p))) then Raise (RaisedBy "reindex")
  else if negb (is_unique (dates (frame other))) then
    Raise (RaisedBy "reindex")
  else
    let plan1 := reindex_fillna0 plan1 index_combo in
    let plan2 := reindex_fillna0 plan2 index_combo in
    let plan :=
      fold_right insert_event [] (combine index_combo (vadd plan1 plan2)) in
    let new_ir := if is_zero (ir p) then ir other else ir p in
    init true (map fst plan) (map snd plan) new_ir.

(** What the constructor and the setter of [ir] keep true of a plan made
    from a list of amounts: dates in increasing order, positive finite
    amounts, a rate between 0 and 1. *)
Definition well_formed (p : t) : Prop :=
  StronglySorted Z.le (dates (frame p)) /\
  Forall pos_fin (amounts (frame p)) /\
  fle (Fin 0) (ir p) && fle (ir p) (Fin 1) = true.

End CashPlanOps.

(* ================================================================== *)
(** ** Inputs used in the examples *)

(** A cost model that charges nothing. *)
Definition free_Cost : Cost :=
  mkCost (Fin 0) (Fin 0) (Fin 0) (Fin 0) (Fin 0) (Fin 0) (Fin 0).

(** One instrument at price 10, no trade signal on day 0 and on day 250,
    1000 invested on day 0 and 500 on day 250. *)
Definition growth_signals : DataFrame :=
  mkDataFrame 1 [(0%Z, [Fin 0]); (250%Z, [Fin 0])].
Definition growth_prices : DataFrame :=
  mkDataFrame 1 [(0%Z, [Fin 10]); (250%Z, [Fin 10])].
Definition growth_plan : CashPlan :=
  mkCashPlan [(0%Z, Fin 1000); (250%Z, Fin 500)].

(** One instrument with prices on days 0 and 1, a signal row on day 1, and
    1000 invested on day 5, for which the price table has no row. *)
Definition unaligned_signals : DataFrame := mkDataFrame 1 [(1%Z, [Fin 0])].
Definition unaligned_prices : DataFrame :=
  mkDataFrame 1 [(0%Z, [Fin 10]); (1%Z, [Fin 10])].
Definition unaligned_plan : CashPlan := mkCashPlan [(5%Z, Fin 1000)].
(* ================================================================== *)
(** * Proofs *)

(** ** Arrays *)

Lemma calculate_map self tvs b f :
  calculate self tvs b f = map (calculate1 self b f) tvs.
Proof.
  unfold calculate, calculate1, buy_min_rate, sell_min_rate, vadd.
  destruct f, b; try reflexivity.
  - destruct (is_zero (buy_min self)); [reflexivity|].
    induction tvs as [|t tvs IH]; simpl; [reflexivity|]. now rewrite IH.
  - destruct (is_zero (sell_min self)); [reflexivity|].
    induction tvs as [|t tvs IH]; simpl; [reflexivity|]. now rewrite IH.
Qed.

(** The three arrays of a purchase, instrument by instrument. *)
Lemma purchase_arrays_cons self moq p ps c cs :
  purchase_arrays self (p :: ps) (c :: cs) moq =
  let '(a, s, f) := purchase1 self moq p c in
  let '(al, sl, fl) := purchase_arrays self ps cs moq in
  (a :: al, s :: sl, f :: fl).
Proof.
  unfold purchase_arrays, purchase1.
  rewrite !calculate_map.
  destruct (is_zero (buy_fix self)), (is_zero moq); reflexivity.
Qed.

Lemma purchase_arrays_nil_l self moq cs :
  purchase_arrays self [] cs moq = ([], [], []).
Proof.
  unfold purchase_arrays.
  destruct (is_zero (buy_fix self)), (is_zero moq); reflexivity.
Qed.

Lemma purchase_arrays_nil_r self moq ps :
  purchase_arrays self ps [] moq = ([], [], []).
Proof.
  unfold purchase_arrays, vwhere, vdiv, vsub, vmul, vadd.
  rewrite !calculate_map. simpl.
  destruct (is_zero (buy_fix self)), (is_zero moq);
    destruct ps; reflexivity.
Qed.

(** ** Extended rationals *)

Lemma Qeq_bool_true_eq (a b : Q) : Qeq_bool a b = true -> a == b.
Proof. apply Qeq_bool_iff. Qed.

Lemma Qeq_bool_of_eq (a b : Q) : a == b -> Qeq_bool a b = true.
Proof. apply Qeq_bool_iff. Qed.

Lemma Qeq_bool_of_neq (a b : Q) : ~ a == b -> Qeq_bool a b = false.
Proof.
  intros H. destruct (Qeq_bool a b) eqn:E; [|reflexivity].
  apply Qeq_bool_iff in E. contradiction.
Qed.

Lemma Qsgn_zero (a : Q) : Qsgn a = 0%Z <-> a == 0.
Proof.
  unfold Qsgn, Qeq. simpl. rewrite Z.sgn_null_iff. lia.
Qed.

Lemma inf_of_sign_not_fin (s : Z) (q : Q) : inf_of_sign s <> Fin q.
Proof.
  destruct s; discriminate.
Qed.

Lemma inf_of_sign_isinf (s : Z) : s <> 0%Z -> isinf (inf_of_sign s) = true.
Proof.
  destruct s; simpl; congruence.
Qed.

(** [feq] is an equivalence, and [feqb] decides it. *)
Lemma feq_refl (x : fnum) : feq x x.
Proof.
  destruct x; simpl; auto. reflexivity.
Qed.

Lemma feq_sym (x y : fnum) : feq x y -> feq y x.
Proof.
  destruct x, y; simpl; auto. intros H; now symmetry.
Qed.

Lemma feq_trans (x y z : fnum) : feq x y -> feq y z -> feq x z.
Proof.
  destruct x, y, z; simpl; auto; try contradiction.
  intros H1 H2. now rewrite H1.
Qed.

Lemma feqb_feq (x y : fnum) : feqb x y = true <-> feq x y.
Proof.
  destruct x, y; simpl; try tauto; try (split; [discriminate|contradiction]).
  apply Qeq_bool_iff.
Qed.

Lemma fsum_cons (x : fnum) (l : vec) : fsum (x :: l) = fadd x (fsum l).
Proof. reflexivity. Qed.

Lemma truthy_fin_zero (q : Q) : q == 0 -> truthy (Fin q) = false.
Proof. intros H. simpl. now rewrite (Qeq_bool_of_eq _ _ H). Qed.

Lemma is_zero_false_fin (m : Q) : ~ m == 0 -> is_zero (Fin m) = false.
Proof. intros H. simpl. now apply Qeq_bool_of_neq. Qed.


(** ** The cost model, instrument by instrument *)

Lemma purchase_arrays_nth_error self moq prices cash i p c :
  nth_error prices i = Some p ->
  nth_error cash i = Some c ->
  nth_error (fst (fst (purchase_arrays self prices cash moq))) i
    = Some (fst (fst (purchase1 self moq p c))) /\
  nth_error (snd (fst (purchase_arrays self prices cash moq))) i
    = Some (snd (fst (purchase1 self moq p c))) /\
  nth_error (snd (purchase_arrays self prices cash moq)) i
    = Some (snd (purchase1 self moq p c)).
Proof.
  revert cash i.
  induction prices as [|p0 ps IH]; intros [|c0 cs] [|i]; simpl;
    try discriminate.
  - intros [= ->] [= ->]. rewrite purchase_arrays_cons.
    destruct (purchase1 self moq p c) as [[a s] f].
    destruct (purchase_arrays self ps cs moq) as [[al sl] fl]. simpl. auto.
  - intros Hp Hc. rewrite purchase_arrays_cons.
    specialize (IH cs i Hp Hc).
    destruct (purchase1 self moq p0 c0) as [[a s] f].
    destruct (purchase_arrays self ps cs moq) as [[al sl] fl]. simpl in *.
    exact IH.
Qed.

Lemma get_purchase_result_arrays self prices cash moq :
  get_purchase_result self prices cash moq =
  (fst (fst (purchase_arrays self prices cash moq)),
   fsum (snd (fst (purchase_arrays self prices cash moq))),
   fsum (snd (purchase_arrays self prices cash moq))).
Proof.
  unfold get_purchase_result.
  destruct (purchase_arrays self prices cash moq) as [[a s] f]. reflexivity.
Qed.

Lemma get_selling_result_sold self prices a_to_sell moq :
  fst (fst (get_selling_result self prices a_to_sell moq))
  = map (sold1 moq) a_to_sell.
Proof.
  unfold get_selling_result, sold1.
  destruct (is_zero (sell_fix self)), (is_zero moq); simpl;
    try reflexivity; symmetry; apply map_id.
Qed.

Lemma purchase1_zero_price self moq p c :
  p == 0 -> purchase1 self moq (Fin p) c = (Fin 0, Fin 0, Fin 0).
Proof.
  intros Hp. unfold purchase1. rewrite (truthy_fin_zero _ Hp).
  destruct (is_zero (buy_fix self)); reflexivity.
Qed.

(* ------------------------------------------------------------------ *)
(** ** Zero prices in a purchase *)

(** C10.  In [get_purchase_result], an instrument whose price is zero is
    bought in quantity zero and adds zero to the cash spent and to the
    fee, whatever the fee mode, the lot size and the budget: the three
    per-instrument arrays hold 0 at its position, and the result is the
    quantity array with the sums of the other two. *)
Theorem purchase_zero_price (self : Cost) (prices cash_to_spend : vec)
        (moq : fnum) (i : nat) (p : Q) (c : fnum) :
  nth_error prices i = Some (Fin p) -> p == 0 ->
  nth_error cash_to_spend i = Some c ->
  let '(a_purchased, cash_spent, fees) :=
    purchase_arrays self prices cash_to_spend moq in
  get_purchase_result self prices cash_to_spend moq
  = (a_purchased, fsum cash_spent, fsum fees) /\
  nth_error a_purchased i = Some (Fin 0) /\
  nth_error cash_spent i = Some (Fin 0) /\
  nth_error fees i = Some (Fin 0).
Proof.
  intros Hp Hz Hc.
  pose proof (purchase_arrays_nth_error self moq _ _ _ _ _ Hp Hc) as H.
  pose proof (get_purchase_result_arrays self prices cash_to_spend moq) as G.
  rewrite (purchase1_zero_price self moq p c Hz) in H.
  destruct (purchase_arrays self prices cash_to_spend moq) as [[a s] f].
  simpl in *. tauto.
Qed.

Lemma purchase_zero_price_witness :
  get_purchase_result default_Cost [Fin 10; Fin 0] [Fin 1000; Fin 1000]
                      (Fin 100)
  = (fst (fst (purchase_arrays default_Cost [Fin 10; Fin 0]
                               [Fin 1000; Fin 1000] (Fin 100))),
     fsum (snd (fst (purchase_arrays default_Cost [Fin 10; Fin 0]
                               [Fin 1000; Fin 1000] (Fin 100)))),
     fsum (snd (purchase_arrays default_Cost [Fin 10; Fin 0]
                               [Fin 1000; Fin 1000] (Fin 100)))) /\
  nth_error (fst (fst (get_purchase_result default_Cost [Fin 10; Fin 0]
                         [Fin 1000; Fin 1000] (Fin 100)))) 1
  = Some (Fin 0).
Proof.
  pose proof (purchase_zero_price default_Cost [Fin 10; Fin 0]
                [Fin 1000; Fin 1000] (Fin 100) 1 0 (Fin 1000)
                eq_refl (Qeq_refl 0) eq_refl) as H.
  rewrite get_purchase_result_arrays.
  destruct (purchase_arrays default_Cost [Fin 10; Fin 0]
              [Fin 1000; Fin 1000] (Fin 100)) as [[a s] f].
  simpl. destruct H as (H1 & H2 & _). split; [reflexivity | exact H2].
Defined.

(* ------------------------------------------------------------------ *)
(** ** Rates at a trade value of zero *)

Lemma sell_min_rate_nth sm tvs i tv :
  nth_error tvs i = Some tv ->
  nth_error (sell_min_rate sm tvs) i
  = Some (let r := fdiv (fneg sm) tv in if isinf r then Fin 0 else r).
Proof.
  intros H. unfold sell_min_rate. now rewrite !nth_error_map, H.
Qed.

Lemma buy_min_rate_nth bm tvs i tv :
  nth_error tvs i = Some tv ->
  nth_error (buy_min_rate bm tvs) i = Some (fdiv bm (fsub tv bm)).
Proof.
  intros H. unfold buy_min_rate. now rewrite !nth_error_map, H.
Qed.

Lemma calculate_nth self tvs b f i tv :
  nth_error tvs i = Some tv ->
  nth_error (calculate self tvs b f) i = Some (calculate1 self b f tv).
Proof.
  intros H. now rewrite calculate_map, nth_error_map, H.
Qed.

Lemma fdiv_by_zero_isinf (s q : Q) :
  ~ s == 0 -> q == 0 -> isinf (fdiv (Fin s) (Fin q)) = true.
Proof.
  intros Hs Hq. simpl. rewrite (Qeq_bool_of_eq _ _ Hq).
  apply inf_of_sign_isinf. rewrite Qsgn_zero. exact Hs.
Qed.

Lemma fmax_fin_fin (a b : Q) : exists c, fmax (Fin a) (Fin b) = Fin c.
Proof. simpl. destruct (Qle_bool a b); eauto. Qed.

(** C6, as the code has it.  In rate mode, at an instrument whose trade
    value is zero and for finite coefficients:
    - selling with a non-zero minimum fee, the minimum-fee rate
      [-sm / 0] is infinite and is reset to 0, and the rate returned is
      [fmax(sell_rate, 0)], a finite number;
    - buying with a non-zero minimum fee, nothing is reset: the
      minimum-fee rate is [bm / (0 - bm) = -1], and the rate returned is
      [fmax(buy_rate, -1)], a finite number. *)
Theorem calculate_zero_trade_value (self : Cost) (trade_values : vec)
        (i : nat) (q : Q) :
  nth_error trade_values i = Some (Fin q) -> q == 0 ->
  finite (slipage self) ->
  (forall sm, sell_min self = Fin sm -> ~ sm == 0 ->
     finite (sell_rate self) ->
     nth_error (sell_min_rate (sell_min self) trade_values) i = Some (Fin 0)
     /\ exists r,
         nth_error (calculate self trade_values false false) i = Some (Fin r)
         /\ feq (Fin r) (fmax (sell_rate self) (Fin 0))) /\
  (forall bm, buy_min self = Fin bm -> ~ bm == 0 ->
     finite (buy_rate self) ->
     (exists mr,
         nth_error (buy_min_rate (buy_min self) trade_values) i = Some (Fin mr)
         /\ mr == -1)
     /\ exists r,
         nth_error (calculate self trade_values true false) i = Some (Fin r)
         /\ feq (Fin r) (fmax (buy_rate self) (Fin (-1)))).
Proof.
  intros Hi Hq Hslp.
  destruct (slipage self) as [sl| | |] eqn:Esl; try contradiction.
  split.
  - intros sm Esm Hsm Hsr.
    destruct (sell_rate self) as [sr| | |] eqn:Esr; try contradiction.
    assert (Hinf : isinf (fdiv (Fin (- sm)) (Fin q)) = true).
    { apply fdiv_by_zero_isinf; [|exact Hq]. intros E. apply Hsm.
      rewrite <- (Qopp_involutive sm), E. reflexivity. }
    split.
    + rewrite (sell_min_rate_nth _ _ _ _ Hi), Esm. cbv zeta.
      change (fneg (Fin sm)) with (Fin (- sm)). now rewrite Hinf.
    + rewrite (calculate_nth _ _ _ _ _ _ Hi). unfold calculate1.
      rewrite Esm, Esr, Esl. rewrite (is_zero_false_fin _ Hsm).
      change (fneg (Fin sm)) with (Fin (- sm)). cbv zeta. rewrite Hinf.
      destruct (fmax_fin_fin sr 0) as [c Hc]. rewrite Hc. simpl.
      eexists; split; [reflexivity|]. simpl. rewrite Hq. ring.
  - intros bm Ebm Hbm Hbr.
    destruct (buy_rate self) as [br| | |] eqn:Ebr; try contradiction.
    assert (Hd : Qeq_bool (q + - bm) 0 = false).
    { apply Qeq_bool_of_neq. intros E. apply Hbm. rewrite Hq in E.
      rewrite <- (Qopp_involutive bm).
      setoid_replace (- bm) with (0 + - bm) by ring. rewrite E. reflexivity. }
    assert (Hm : bm / (q + - bm) == -1).
    { rewrite Hq. field. exact Hbm. }
    split.
    + rewrite (buy_min_rate_nth _ _ _ _ Hi), Ebm. simpl. rewrite Hd.
      eexists; split; [reflexivity | exact Hm].
    + rewrite (calculate_nth _ _ _ _ _ _ Hi). unfold calculate1.
      rewrite Ebm, Ebr, Esl. rewrite (is_zero_false_fin _ Hbm).
      simpl. rewrite Hd.
      assert (Hle : Qle_bool br (bm / (q + - bm)) = Qle_bool br (-1)).
      { destruct (Qle_bool br (-1)) eqn:E1.
        - apply Qle_bool_iff. apply Qle_bool_iff in E1. now rewrite Hm.
        - destruct (Qle_bool br (bm / (q + - bm))) eqn:E2; [|reflexivity].
          apply Qle_bool_iff in E2. rewrite Hm in E2.
          apply Qle_bool_iff in E2. congruence. }
      rewrite Hle. destruct (Qle_bool br (-1)); cbn [fadd fmul];
        (eexists; split; [reflexivity|]); cbn [feq].
      * rewrite Hm, Hq. ring.
      * rewrite Hq. ring.
Qed.

Lemma calculate_zero_trade_value_witness :
  nth_error (sell_min_rate (Fin 5) [Fin (-100); Fin 0]) 1 = Some (Fin 0) /\
  exists mr,
    nth_error (buy_min_rate (Fin 5) [Fin (-100); Fin 0]) 1 = Some (Fin mr)
    /\ mr == -1.
Proof.
  pose (c := mkCost (Fin 0) (Fin 0) (Fin (3 # 1000)) (Fin (1 # 1000))
                    (Fin 5) (Fin 5) (Fin 0)).
  assert (H5 : ~ 5 == 0) by (intro H; discriminate H).
  destruct (calculate_zero_trade_value c [Fin (-100); Fin 0] 1 0
              eq_refl (Qeq_refl 0) I) as [Hs Hb].
  split.
  - exact (proj1 (Hs 5 eq_refl H5 I)).
  - exact (proj1 (Hb 5 eq_refl H5 I)).
Defined.

(** C6 as stated fails on the buying side.  At a trade value of zero the
    minimum-fee rate of a purchase is [-1], not a forced zero, so that a
    buy rate of [-1/2] is returned as it is where a forced zero would give
    [fmax(-1/2, 0) = 0]; and the division of the buying side, by
    [trade_values - bm], is unguarded where it does vanish: a budget equal
    to the minimum fee gets an infinite rate. *)
Lemma calculate_buy_zero_value_not_forced :
  veqb (buy_min_rate (Fin 5) [Fin 0]) [Fin (-1)] = true /\
  veqb (buy_min_rate (Fin 5) [Fin 0]) [Fin 0] = false /\
  veqb (calculate (mkCost (Fin 0) (Fin 0) (Fin (-1 # 2)) (Fin (1 # 1000))
                          (Fin 5) (Fin 0) (Fin 0))
                  [Fin 0] true false)
       [Fin (-1 # 2)] = true /\
  calculate default_Cost [Fin 5] true false = [PInf].
Proof. vm_compute. repeat split; reflexivity. Qed.

(* ------------------------------------------------------------------ *)
(** ** Slippage on the selling side *)

(** With [sell_min = 0] the selling rate is [sell_rate - slipage * value]:
    the slippage term is subtracted. *)
Lemma calculate_sell_no_min_subtracts (self : Cost) (trade_values : vec) :
  is_zero (sell_min self) = true ->
  calculate self trade_values false false
  = map (fun tv => fsub (sell_rate self) (fmul (slipage self) tv))
        trade_values.
Proof.
  intros H. unfold calculate. now rewrite H.
Qed.

(** C7 fails when [sell_min] is not zero: that branch adds the slippage
    term.  With [sell_rate = 0.001], [slipage = 0.000001] and trade values
    10000 and 20000, a cost model with [sell_min = 5] returns the rates
    [0.011] and [0.021], which grow with the trade value, whereas the same
    model with [sell_min = 0] returns [-0.009] and [-0.019]. *)
Theorem calculate_sell_min_adds_slippage :
  veqb (calculate (mkCost (Fin 0) (Fin 0) (Fin (3 # 1000)) (Fin (1 # 1000))
                          (Fin 5) (Fin 5) (Fin (1 # 1000000)))
                  [Fin 10000; Fin 20000] false false)
       [Fin (11 # 1000); Fin (21 # 1000)] = true /\
  veqb (calculate (mkCost (Fin 0) (Fin 0) (Fin (3 # 1000)) (Fin (1 # 1000))
                          (Fin 5) (Fin 0) (Fin (1 # 1000000)))
                  [Fin 10000; Fin 20000] false false)
       [Fin (-9 # 1000); Fin (-19 # 1000)] = true.
Proof. vm_compute. split; reflexivity. Qed.

(* ================================================================== *)
(** * The trade step *)

(** The two calls of [_loop_step] name parameters that the methods of
    [Cost] do not have. *)
Lemma sale_call_unexpected_keyword (rate : Cost) (prices op pre_amounts : vec) :
  call_get_selling_result rate
    [("prices", Arr prices); ("op", Arr op); ("amounts", Arr pre_amounts)]%string
  = Raise (TypeError (UnexpectedKeyword "get_selling_result" "op")).
Proof. reflexivity. Qed.

Lemma purchase_call_unexpected_keyword (rate : Cost)
      (prices op pur_values : vec) (moq : fnum) :
  call_get_purchase_result rate
    [("prices", Arr prices); ("op", Arr op); ("pur_values", Arr pur_values);
     ("moq", Num moq)]%string
  = Raise (TypeError (UnexpectedKeyword "get_purchase_result" "op")).
Proof. reflexivity. Qed.

(** The step ends in the sale call, unless the holdings and the prices
    cannot even be multiplied. *)
Lemma loop_step_raises (pre_cash : fnum) (pre_amounts op prices : vec)
      (rate : Cost) (moq : fnum) :
  _loop_step pre_cash pre_amounts op prices rate moq
  = match broadcast fmul pre_amounts prices with
    | Ok _ =>
        Raise (TypeError (UnexpectedKeyword "get_selling_result" "op"))
    | Raise e => Raise e
    end.
Proof.
  unfold _loop_step.
  destruct (broadcast fmul pre_amounts prices) as [held|e]; cbn [bind];
    [|reflexivity].
  now rewrite sale_call_unexpected_keyword.
Qed.

Lemma broadcast_same_length (f : fnum -> fnum -> fnum) (a b : vec) :
  List.length a = List.length b -> broadcast f a b = Ok (zipWith f a b).
Proof. intros H. unfold broadcast. now rewrite H, Nat.eqb_refl. Qed.

Lemma broadcast_error (f : fnum -> fnum -> fnum) (a b : vec) (e : error) :
  broadcast f a b = Raise e -> exists msg, e = ValueError msg.
Proof.
  unfold broadcast.
  destruct (Nat.eqb (List.length a) (List.length b)); [discriminate|].
  destruct (Nat.eqb (List.length a) 1); [discriminate|].
  destruct (Nat.eqb (List.length b) 1); [discriminate|].
  intros [= <-]. eauto.
Qed.

(** C1.  [_loop_step] returns no value at all: whatever the cash, the
    holdings, the signals, the prices, the cost model and the lot size,
    it raises, and for arrays that can be multiplied the error is the
    [TypeError] of the sale call, which passes the keywords [op] and
    [amounts] to a method whose parameters are [prices], [a_to_sell] and
    [moq].  So it does at a cash of 1000 with no holdings and no signal,
    where the claim has it return the value 1000 with a fee of 0. *)
Theorem loop_step_returns_no_value :
  (forall pre_cash pre_amounts op prices rate moq,
      exists e,
        _loop_step pre_cash pre_amounts op prices rate moq = Raise e /\
        (e = TypeError (UnexpectedKeyword "get_selling_result" "op")
         \/ exists msg, e = ValueError msg)) /\
  _loop_step (Fin 1000) [Fin 0] [Fin 0] [Fin 10] default_Cost (Fin 0)
  = Raise (TypeError (UnexpectedKeyword "get_selling_result" "op")).
Proof.
  split.
  - intros pre_cash pre_amounts op prices rate moq.
    rewrite loop_step_raises.
    destruct (broadcast fmul pre_amounts prices) as [held|e] eqn:E.
    + eexists. split; [reflexivity | now left].
    + exists e. split; [reflexivity|]. right.
      exact (broadcast_error _ _ _ _ E).
  - reflexivity.
Qed.

(** C2.  With a cash of 4, holdings of 10 at price 1 and a full buy
    signal under the default cost model, the step raises in its sale
    call and never reaches the buy phase; no cash is returned.  The
    method of the buy phase, called as it is defined with the budget 4,
    does not keep within it either: the budget is below the minimum fee
    of 5, the purchase buys 4/1.003 and charges the fee on top, and
    9015/1003 is spent. *)
Theorem loop_step_buy_phase_not_reached :
  _loop_step (Fin 4) [Fin 10] [Fin 1] [Fin 1] default_Cost (Fin 0)
  = Raise (TypeError (UnexpectedKeyword "get_selling_result" "op")) /\
  let '(_, cash_spent, fee) :=
    get_purchase_result default_Cost [Fin 1] [Fin 4] (Fin 0) in
  feqb cash_spent (Fin (-9015 # 1003)) = true /\
  feqb fee (Fin 5) = true /\
  fgt (fneg cash_spent) (Fin 4) = true.
Proof. split; [reflexivity|]. vm_compute. repeat split; reflexivity. Qed.


(* ------------------------------------------------------------------ *)
(** ** The back-test loop *)




(** *** Merging the investment dates *)

Lemma has_label_In (d : date) (rs : list (date * vec)) :
  has_label d rs = true <-> In d (map fst rs).
Proof.
  unfold has_label. rewrite existsb_exists, in_map_iff. split.
  - intros ([x v] & Hin & E). apply Z.eqb_eq in E. simpl in E. subst.
    exists (d, v). auto.
  - intros ([x v] & E & Hin). simpl in E. subst.
    exists (d, v). split; [exact Hin | apply Z.eqb_refl].
Qed.

Lemma insert_row_perm r rs : Permutation (insert_row r rs) (r :: rs).
Proof.
  induction rs as [|r' rs IH]; simpl; [reflexivity|].
  destruct (Z.leb (fst r) (fst r')); [reflexivity|].
  rewrite IH. apply perm_swap.
Qed.

Lemma sort_index_perm df : Permutation (rows (sort_index df)) (rows df).
Proof.
  unfold sort_index. simpl. induction (rows df) as [|r rs IH]; simpl.
  - reflexivity.
  - rewrite insert_row_perm. now constructor.
Qed.

Lemma merge_step_keeps ol d x :
  In x (index ol) -> In x (index (merge_step ol d)).
Proof.
  unfold merge_step, index. destruct (has_label d (rows ol)); [tauto|].
  simpl. rewrite map_app, in_app_iff. tauto.
Qed.

Lemma merge_step_adds ol d : In d (index (merge_step ol d)).
Proof.
  unfold merge_step, index. destruct (has_label d (rows ol)) eqn:E.
  - now apply has_label_In.
  - simpl. rewrite map_app, in_app_iff. simpl. tauto.
Qed.

Lemma merge_fold_keeps ds ol x :
  In x (index ol) -> In x (index (fold_left merge_step ds ol)).
Proof.
  revert ol; induction ds as [|d ds IH]; intros ol H; simpl; [exact H|].
  apply IH. now apply merge_step_keeps.
Qed.

Lemma merge_fold_adds ds ol d :
  In d ds -> In d (index (fold_left merge_step ds ol)).
Proof.
  revert ol; induction ds as [|d' ds IH]; intros ol []; simpl.
  - subst. apply merge_fold_keeps, merge_step_adds.
  - now apply IH.
Qed.

(** Every date of the cash plan is in the index of the merged table, and
    so is every date of the signal table. *)
Lemma merge_invest_dates_index op_list invest d :
  In d (dates invest) \/ In d (index op_list) ->
  In d (index (_merge_invest_dates op_list invest)).
Proof.
  intros H. unfold _merge_invest_dates, index.
  apply (Permutation_in _ (Permutation_map fst
           (Permutation_sym (sort_index_perm _)))).
  destruct H as [H | H].
  - now apply merge_fold_adds.
  - now apply merge_fold_keeps.
Qed.

(** *** Where the cash plan lands in the merged table *)

Lemma insert_row_sorted r rs :
  StronglySorted Z.le (map fst rs) ->
  StronglySorted Z.le (map fst (insert_row r rs)).
Proof.
  induction rs as [|r' rs IH]; simpl; intros H.
  - repeat constructor.
  - destruct (Z.leb _ _) eqn:E; simpl.
    + apply Z.leb_le in E. constructor; [exact H|].
      apply StronglySorted_inv in H as [_ H2].
      constructor; [exact E|].
      rewrite Forall_forall in *. intros x Hx. specialize (H2 x Hx).
      exact (Z.le_trans _ _ _ E H2).
    + apply Z.leb_gt in E. apply StronglySorted_inv in H as [H1 H2].
      constructor; [now apply IH|].
      rewrite Forall_forall in *. intros x Hx.
      apply (Permutation_in _ (Permutation_map fst (insert_row_perm r rs)))
        in Hx.
      destruct Hx as [<- | Hx]; [exact (Z.lt_le_incl _ _ E) | now apply H2].
Qed.

Lemma sort_index_sorted df : StronglySorted Z.le (index (sort_index df)).
Proof.
  unfold index, sort_index. simpl.
  induction (rows df) as [|r rs IH]; simpl; [constructor|].
  now apply insert_row_sorted.
Qed.






Section PlanDates.

Variable l : list date.
Hypothesis l_sorted : StronglySorted Z.le l.
Hypothesis l_NoDup : NoDup l.

Variables (k : nat) (d : date).
Hypothesis k_d : nth_error l k = Some d.

Abbreviation keyed events :=
  (combine (map (searchsorted l) (map fst events)) (map snd events)).




End PlanDates.

Lemma invested_on_Some cp d a :
  NoDup (dates cp) -> In (d, a) (plan cp) <-> invested_on cp d = Some a.
Proof.
  unfold invested_on, dates. destruct cp as [events]. simpl.
  induction events as [|[e a'] events IH]; simpl; intros Hn.
  - split; [contradiction | discriminate].
  - apply NoDup_cons_iff in Hn as [He Hn]. specialize (IH Hn).
    destruct (Z.eqb e d) eqn:E; simpl.
    + apply Z.eqb_eq in E. subst e. split.
      * intros [[= ->] | Hin]; [reflexivity|].
        exfalso. apply He. apply in_map_iff. exists (d, a). auto.
      * intros [= ->]. now left.
    + apply Z.eqb_neq in E. rewrite <- IH. split.
      * intros [[= -> ->] | Hin]; [congruence | exact Hin].
      * intros Hin. now right.
Qed.



(* ------------------------------------------------------------------ *)
(** ** The result pool *)

Lemma StronglySorted_app_inv {A : Type} (R : A -> A -> Prop) (l1 l2 : list A) :
  StronglySorted R (l1 ++ l2) ->
  StronglySorted R l2 /\ forall x y, In x l1 -> In y l2 -> R x y.
Proof.
  induction l1 as [|a l1 IH]; simpl; intros H.
  - split; [exact H | intros x y []].
  - apply StronglySorted_inv in H as [H1 H2].
    destruct (IH H1) as [S2 Hxy]. split; [exact S2|].
    intros x y [<- | Hx] Hy.
    + rewrite Forall_forall in H2. apply H2, in_or_app. now right.
    + now apply Hxy.
Qed.

Module PoolFacts.
Import ResultPool.

Section Facts.

Variables par score : Type.
Variable entry_eq_dec : forall x y : par * score, {x = y} + {x <> y}.
Variable leb : score -> score -> bool.

Hypothesis leb_total : forall a b, leb a b = true \/ leb b a = true.
Hypothesis leb_trans :
  forall a b c, leb a b = true -> leb b c = true -> leb a c = true.

Abbreviation pool := (ResultPool.t par score).
Abbreviation entry := (par * score)%type.
Abbreviation worse k := (fun e1 e2 : entry => worse_eqb leb k e1 e2 = true).

Lemma worse_total k (e1 e2 : entry) :
  worse_eqb leb k e1 e2 = true \/ worse_eqb leb k e2 e1 = true.
Proof. unfold worse_eqb. destruct k; apply leb_total. Qed.

Lemma worse_trans k (e1 e2 e3 : entry) :
  worse_eqb leb k e1 e2 = true -> worse_eqb leb k e2 e3 = true ->
  worse_eqb leb k e1 e3 = true.
Proof. unfold worse_eqb. destruct k; eauto. Qed.

Lemma insert_ranked_perm k (e : entry) l :
  Permutation (insert_ranked leb k e l) (e :: l).
Proof.
  induction l as [|e' l IH]; simpl; [reflexivity|].
  destruct (worse_eqb leb k e e'); [reflexivity|].
  rewrite IH. apply perm_swap.
Qed.

Lemma rank_perm k (l : list entry) : Permutation (rank leb k l) l.
Proof.
  induction l as [|e l IH]; simpl; [reflexivity|].
  unfold rank in *. simpl. rewrite insert_ranked_perm. now constructor.
Qed.

Lemma insert_ranked_sorted k (e : entry) l :
  StronglySorted (worse k) l ->
  StronglySorted (worse k) (insert_ranked leb k e l).
Proof.
  induction l as [|e' l IH]; simpl; intros H.
  - constructor; constructor.
  - destruct (worse_eqb leb k e e') eqn:E.
    + constructor; [exact H|].
      apply StronglySorted_inv in H as [_ H2].
      constructor; [exact E|].
      rewrite Forall_forall in *. intros x Hx.
      eapply worse_trans; [exact E | now apply H2].
    + apply StronglySorted_inv in H as [H1 H2].
      constructor; [now apply IH|].
      rewrite Forall_forall in *. intros x Hx.
      apply (Permutation_in _ (insert_ranked_perm k e l)) in Hx.
      destruct Hx as [<- | Hx]; [|now apply H2].
      destruct (worse_total k e' e) as [T | T]; [exact T | congruence].
Qed.

Lemma rank_sorted k (l : list entry) : StronglySorted (worse k) (rank leb k l).
Proof.
  induction l as [|e l IH]; unfold rank in *; simpl.
  - constructor.
  - now apply insert_ranked_sorted.
Qed.

Lemma in_pool_all_capacity (p : pool) l :
  capacity (in_pool_all entry_eq_dec p l) = capacity p.
Proof.
  revert p; induction l as [|e l IH]; intros p; simpl; [reflexivity|].
  unfold in_pool_all in *. simpl. rewrite IH. unfold in_pool.
  destruct (in_dec _ _ _); reflexivity.
Qed.

Lemma in_pool_all_In (p : pool) l e :
  In e (entries (in_pool_all entry_eq_dec p l)) <-> In e (entries p) \/ In e l.
Proof.
  revert p; induction l as [|[x s] l IH]; intros p; simpl.
  - tauto.
  - unfold in_pool_all in *. simpl. rewrite IH. unfold in_pool. simpl.
    destruct (in_dec _ _ _) as [Hin | Hout]; simpl.
    + split; [tauto|]. intros [H | [<- | H]]; auto.
    + rewrite in_app_iff. simpl. tauto.
Qed.

Lemma in_pool_all_NoDup (p : pool) l :
  NoDup (entries p) -> NoDup (entries (in_pool_all entry_eq_dec p l)).
Proof.
  revert p; induction l as [|[x s] l IH]; intros p H; simpl; [exact H|].
  unfold in_pool_all in *. simpl. apply IH. unfold in_pool. simpl.
  destruct (in_dec _ _ _) as [Hin | Hout]; simpl; [exact H|].
  apply NoDup_app; [exact H | constructor; [intros [] | constructor] |].
  intros y Hy [<- | []]. contradiction.
Qed.

Lemma distinct_inserted_length cap l :
  List.length (entries (in_pool_all entry_eq_dec (new cap) l))
  = List.length (nodup entry_eq_dec l).
Proof.
  apply Permutation_length, NoDup_Permutation.
  - apply in_pool_all_NoDup. constructor.
  - apply NoDup_nodup.
  - intros e. rewrite in_pool_all_In, nodup_In. simpl. tauto.
Qed.

(** C9.  Insert any sequence [l] of (vector, score) pairs into a fresh pool
    of capacity [cap] and trim it.  The pool then holds exactly
    [min cap d] entries, [d] being the number of distinct pairs of [l], so
    at most [cap] (and [min cap (length l)] when no pair is inserted
    twice); they are inserted pairs, without repetition, sorted by score
    with the best last (highest last when maximizing, lowest last when
    minimizing); and an inserted pair left out of the pool is no better
    than any pair in it. *)
Theorem result_pool_top_k (cap : nat) (keep_largest : bool) (l : list entry) :
  let p := cut leb (in_pool_all entry_eq_dec (new cap) l) keep_largest in
  capacity p = cap /\
  List.length (entries p)
    = Nat.min cap (List.length (nodup entry_eq_dec l)) /\
  (List.length (entries p) <= cap)%nat /\
  StronglySorted (worse keep_largest) (entries p) /\
  NoDup (entries p) /\
  (forall e, In e (entries p) -> In e l) /\
  (forall e e', In e l -> ~ In e (entries p) -> In e' (entries p) ->
                worse_eqb leb keep_largest e e' = true) /\
  (NoDup l -> List.length (entries p) = Nat.min cap (List.length l)).
Proof.
  set (q := in_pool_all entry_eq_dec (new cap) l).
  set (ranked := rank leb keep_largest (entries q)).
  assert (Hcap : capacity q = cap) by apply in_pool_all_capacity.
  assert (Hperm : Permutation ranked (entries q)) by apply rank_perm.
  assert (Hlen : List.length ranked = List.length (nodup entry_eq_dec l)).
  { rewrite (Permutation_length Hperm). apply distinct_inserted_length. }
  assert (Hsorted : StronglySorted (worse keep_largest) ranked)
    by apply rank_sorted.
  assert (Hnd : NoDup ranked).
  { apply (Permutation_NoDup (Permutation_sym Hperm)).
    apply in_pool_all_NoDup. constructor. }
  set (d := (List.length ranked - cap)%nat).
  assert (Hsplit : ranked = firstn d ranked ++ skipn d ranked)
    by (symmetry; apply firstn_skipn).
  simpl. fold q. fold ranked. rewrite Hcap. fold d.
  assert (Hl : List.length (skipn d ranked)
               = Nat.min cap (List.length (nodup entry_eq_dec l))).
  { rewrite length_skipn. unfold d. rewrite Hlen. lia. }
  rewrite Hsplit in Hsorted, Hnd.
  apply StronglySorted_app_inv in Hsorted as [Hs2 Hcross].
  repeat split.
  - exact Hl.
  - rewrite Hl. lia.
  - exact Hs2.
  - apply NoDup_app_remove_l in Hnd. exact Hnd.
  - intros e He.
    assert (Hr : In e ranked) by (rewrite Hsplit; apply in_or_app; now right).
    apply (Permutation_in _ Hperm) in Hr.
    apply in_pool_all_In in Hr as [[] | Hr]. exact Hr.
  - intros e e' He Hout Hin.
    assert (Hq : In e (entries q)) by (apply in_pool_all_In; now right).
    apply (Permutation_in _ (Permutation_sym Hperm)) in Hq.
    rewrite Hsplit in Hq. apply in_app_or in Hq as [Hq | Hq].
    + now apply Hcross.
    + contradiction.
  - intros Hl'. rewrite Hl. now rewrite (nodup_fixed_point entry_eq_dec Hl').
Qed.

End Facts.
End PoolFacts.

Lemma result_pool_top_k_witness :
  let l := [(1%nat, 5%Z); (2%nat, 3%Z); (1%nat, 5%Z); (3%nat, 9%Z)] in
  let p := ResultPool.cut Z.leb
             (ResultPool.in_pool_all nat_Z_eq_dec (ResultPool.new 2) l)
             true in
  ResultPool.entries p = [(1%nat, 5%Z); (3%nat, 9%Z)] /\
  List.length (ResultPool.entries p)
  = Nat.min 2 (List.length (nodup nat_Z_eq_dec l)).
Proof.
  split; [vm_compute; reflexivity|].
  refine (proj1 (proj2
    (PoolFacts.result_pool_top_k nat Z nat_Z_eq_dec Z.leb _ _ 2 true
       [(1%nat, 5%Z); (2%nat, 3%Z); (1%nat, 5%Z); (3%nat, 9%Z)]))).
  - intros a b. rewrite !Z.leb_le. lia.
  - intros a b c. rewrite !Z.leb_le. lia.
Defined.

(* ================================================================== *)
(** * Further properties of the cost model *)

(** Truncation moves a rational towards zero, never past it. *)
Lemma Qtrunc_nonneg (x : Q) :
  0 <= x -> 0 <= inject_Z (Qtrunc x) /\ inject_Z (Qtrunc x) <= x.
Proof.
  destruct x as [n d]. unfold Qle, Qtrunc, inject_Z. simpl.
  rewrite !Z.mul_1_r. intros Hn.
  pose proof (Z.quot_pos n (Zpos d) Hn (Pos2Z.is_pos d)).
  pose proof (Z.mul_quot_le n (Zpos d) Hn ltac:(lia)).
  split; lia.
Qed.

Lemma Qtrunc_nonpos (x : Q) :
  x <= 0 -> x <= inject_Z (Qtrunc x) /\ inject_Z (Qtrunc x) <= 0.
Proof.
  destruct x as [n d]. unfold Qle, Qtrunc, inject_Z. simpl.
  rewrite !Z.mul_1_r. intros Hn.
  pose proof (Z.mul_quot_ge n (Zpos d) Hn ltac:(lia)).
  assert (n ÷ Zpos d <= 0)%Z.
  { pose proof (Z.quot_opp_l n (Zpos d) ltac:(lia)).
    pose proof (Z.quot_pos (- n) (Zpos d) ltac:(lia) (Pos2Z.is_pos d)). lia. }
  split; lia.
Qed.

(** A whole number of lots of size [m] cut from the quantity [a] lies
    between zero and [a]. *)
Lemma lots_between (a m : Q) :
  ~ m == 0 ->
  let s := inject_Z (Qtrunc (a / m)) * m in
  (0 <= a -> 0 <= s /\ s <= a) /\ (a <= 0 -> a <= s /\ s <= 0).
Proof.
  intros Hm s. subst s.
  assert (Ha : a == a / m * m) by (field; exact Hm).
  set (x := a / m) in *. set (t := inject_Z (Qtrunc x)).
  assert (Hx : 0 <= x \/ x <= 0) by (destruct (Qlt_le_dec x 0); [right|left]; lra).
  assert (Hmm : 0 < m \/ m < 0).
  { destruct (Qlt_le_dec 0 m); [now left|]. right.
    destruct (Qlt_le_dec m 0); [assumption|]. exfalso. apply Hm. lra. }
  destruct Hx as [Hx | Hx].
  - destruct (Qtrunc_nonneg x Hx) as [T0 T1]. fold t in T0, T1.
    destruct Hmm as [Hp | Hn]; split; intros Hs; nra.
  - destruct (Qtrunc_nonpos x Hx) as [T0 T1]. fold t in T0, T1.
    destruct Hmm as [Hp | Hn]; split; intros Hs; nra.
Qed.

(** X1.  With a non-zero lot size, the quantity that [get_selling_result]
    sells of an instrument lies between zero and the planned quantity: it
    never exceeds the plan and never has the opposite sign. *)
Theorem sold_within_plan (self : Cost) (prices a_to_sell : vec) (moq : fnum)
        (m : Q) (i : nat) (a : Q) :
  moq = Fin m -> ~ m == 0 ->
  nth_error a_to_sell i = Some (Fin a) ->
  exists s,
    nth_error (fst (fst (get_selling_result self prices a_to_sell moq))) i
    = Some (Fin s) /\
    (0 <= a -> 0 <= s /\ s <= a) /\ (a <= 0 -> a <= s /\ s <= 0).
Proof.
  intros -> Hm Ha.
  rewrite get_selling_result_sold, nth_error_map, Ha. simpl.
  unfold sold1. rewrite (is_zero_false_fin _ Hm). cbn [fdiv].
  rewrite (Qeq_bool_of_neq _ _ Hm). cbn [ftrunc fmul].
  eexists; split; [reflexivity|]. now apply lots_between.
Qed.

Lemma sold_within_plan_witness :
  exists s,
    nth_error (fst (fst (get_selling_result default_Cost [Fin 10]
                           [Fin (-250)] (Fin 100)))) 0
    = Some (Fin s) /\ -250 <= s /\ s <= 0.
Proof.
  assert (H100 : ~ 100 == 0) by (intro H; discriminate H).
  destruct (sold_within_plan default_Cost [Fin 10] [Fin (-250)] (Fin 100)
              100 0 (-250) eq_refl H100 eq_refl) as (s & Hs & _ & Hneg).
  exists s. split; [exact Hs|]. apply Hneg. discriminate.
Defined.

(** *** Buying within the budget *)

(** The buying rate for a budget [c] above the minimum fee, under
    non-negative coefficients: it is a non-negative number [r], large
    enough for the fee [c * r / (1 + r)] to reach the minimum fee. *)
Lemma buy_rate_facts (self : Cost) (br sl bm c : Q) :
  buy_rate self = Fin br -> slipage self = Fin sl -> buy_min self = Fin bm ->
  0 <= br -> 0 <= sl -> 0 <= bm -> bm < c ->
  exists r, calculate1 self true false (Fin c) = Fin r /\
            0 <= r /\ bm * (1 + r) <= c * r.
Proof.
  intros Ebr Esl Ebm Hbr Hsl Hbm Hc. unfold calculate1.
  rewrite Ebr, Esl, Ebm. cbn [is_zero].
  destruct (Qeq_bool bm 0) eqn:Ez.
  - apply Qeq_bool_true_eq in Ez. cbn [fmul fadd].
    eexists; split; [reflexivity|]. split; [nra|]. rewrite Ez. nra.
  - cbn [fsub fneg fadd fdiv].
    assert (He : ~ c + - bm == 0) by (intros E; lra).
    rewrite (Qeq_bool_of_neq _ _ He). cbn [fmax].
    assert (Hmr : bm / (c + - bm) * (c + - bm) == bm) by (field; exact He).
    set (mr := bm / (c + - bm)) in *.
    assert (Hslc : 0 <= sl * c) by nra.
    assert (H3 : 0 <= sl * c * (c + - bm)).
    { apply Qmult_le_0_compat; [exact Hslc | lra]. }
    destruct (Qle_bool br mr) eqn:El; cbn [fmul fadd];
      (eexists; split; [reflexivity|]).
    + apply Qle_bool_iff in El. split; [lra|]. nra.
    + assert (mr < br).
      { destruct (Qlt_le_dec mr br); [assumption|].
        apply Qle_bool_iff in q. congruence. }
      split; [lra|]. nra.
Qed.

(** One instrument bought at rates, with a budget above the minimum fee,
    a positive price and a lot size that is zero or positive. *)
Lemma purchase1_rate_budget (self : Cost) (br sl bm m p c : Q) :
  is_zero (buy_fix self) = true ->
  buy_rate self = Fin br -> slipage self = Fin sl -> buy_min self = Fin bm ->
  0 <= br -> 0 <= sl -> 0 <= bm -> bm < c -> 0 < p -> 0 <= m ->
  exists a s f,
    purchase1 self (Fin m) (Fin p) (Fin c) = (Fin a, Fin s, Fin f) /\
    0 <= a /\ 0 <= f /\ a * p + f == - s /\ - s <= c /\
    (0 < a -> bm <= f) /\
    (m == 0 -> - s == c /\ 0 < a).
Proof.
  intros Efix Ebr Esl Ebm Hbr Hsl Hbm Hc Hp Hm.
  destruct (buy_rate_facts self br sl bm c Ebr Esl Ebm Hbr Hsl Hbm Hc)
    as (r & Er & Hr & Hk).
  unfold purchase1. rewrite Efix, Er, Ebm. cbn [truthy is_zero].
  assert (Hp0 : Qeq_bool p 0 = false) by (apply Qeq_bool_of_neq; lra).
  rewrite Hp0. cbn [negb].
  destruct (Qeq_bool m 0) eqn:Em.
  - apply Qeq_bool_true_eq in Em. cbn [fadd fmul fdiv].
    assert (Hd : ~ p * (1 + r) == 0) by (intros E; nra).
    rewrite (Qeq_bool_of_neq _ _ Hd).
    assert (Ha : c / (p * (1 + r)) * (p * (1 + r)) == c)
      by (field; repeat split; lra).
    set (a := c / (p * (1 + r))) in *.
    assert (Hapos : 0 < a).
    { destruct (Qlt_le_dec 0 a); [assumption|]. exfalso. nra. }
    cbn [truthy]. rewrite (Qeq_bool_of_neq a 0) by lra.
    cbn [negb fmul fadd fmax].
    destruct (Qle_bool (a * p * r) bm) eqn:El; cbn [fmul fadd];
      (do 3 eexists; split; [reflexivity|]).
    + apply Qle_bool_iff in El. repeat split; try nra.
    + assert (bm < a * p * r).
      { destruct (Qlt_le_dec bm (a * p * r)); [assumption|].
        apply Qle_bool_iff in q. congruence. }
      repeat split; try nra.
  - apply Qeq_bool_neq in Em. assert (Hm' : 0 < m).
    { destruct (Qlt_le_dec 0 m); [assumption|]. exfalso. apply Em. lra. }
    cbn [fadd fmul fdiv].
    assert (Hpm : 0 < p * m) by nra.
    assert (HD : 0 < p * m * (1 + r))
      by (apply Qmult_lt_0_compat; [exact Hpm | lra]).
    assert (Hd : ~ p * m * (1 + r) == 0) by (intros E; lra).
    rewrite (Qeq_bool_of_neq _ _ Hd). cbn [ftrunc fmul].
    assert (Hx : c / (p * m * (1 + r)) * (p * m * (1 + r)) == c)
      by (field; repeat split; lra).
    set (D := p * m * (1 + r)) in *.
    set (x := c / D) in *.
    assert (Hxpos : 0 <= x).
    { destruct (Qlt_le_dec x 0); [|assumption]. exfalso. nra. }
    destruct (Qtrunc_nonneg x Hxpos) as [T0 T1].
    set (t := inject_Z (Qtrunc x)) in *.
    assert (Hap : t * m * p * (1 + r) <= c).
    { setoid_replace (t * m * p * (1 + r)) with (t * D)
        by (unfold D; ring).
      rewrite <- Hx. apply Qmult_le_compat_r; lra. }
    clearbody D x t.
    cbn [truthy].
    destruct (Qeq_bool (t * m) 0) eqn:Ea; cbn [negb].
    + apply Qeq_bool_true_eq in Ea. cbn [fmul fadd].
      do 3 eexists; split; [reflexivity|].
      repeat split; try lra; try nra;
        try (intros E; exfalso; apply Em; exact E).
    + apply Qeq_bool_neq in Ea. cbn [fmul fadd fmax].
      assert (Hapos : 0 < t * m).
      { destruct (Qlt_le_dec 0 (t * m)); [assumption|]. exfalso.
        apply Ea. nra. }
      destruct (Qle_bool (t * m * p * r) bm) eqn:El; cbn [fmul fadd];
        (do 3 eexists; split; [reflexivity|]).
      * apply Qle_bool_iff in El.
        repeat split; try lra; try nra;
          try (intros E; exfalso; apply Em; exact E).
      * assert (bm < t * m * p * r).
        { destruct (Qlt_le_dec bm (t * m * p * r)); [assumption|].
          apply Qle_bool_iff in q. congruence. }
        repeat split; try lra; try nra;
          try (intros E; exfalso; apply Em; exact E).
Qed.

(** One instrument that gets no budget is not bought, at rates. *)
Lemma purchase1_rate_no_budget (self : Cost) (br sl bm m p c : Q) :
  is_zero (buy_fix self) = true ->
  buy_rate self = Fin br -> slipage self = Fin sl -> buy_min self = Fin bm ->
  0 <= br -> 0 <= bm -> 0 < p -> 0 <= m -> c == 0 ->
  exists a, purchase1 self (Fin m) (Fin p) (Fin c) = (Fin a, Fin 0, Fin 0)
            /\ a == 0.
Proof.
  intros Efix Ebr Esl Ebm Hbr Hbm Hp Hm Hc.
  assert (Hr : exists r, calculate1 self true false (Fin c) = Fin r /\ 0 <= r).
  { unfold calculate1. rewrite Ebr, Esl, Ebm. cbn [is_zero].
    destruct (Qeq_bool bm 0) eqn:Ez.
    - cbn [fmul fadd]. eexists; split; [reflexivity|]. rewrite Hc. lra.
    - apply Qeq_bool_neq in Ez. cbn [fsub fneg fadd fdiv].
      assert (He : ~ c + - bm == 0) by (intros E; apply Ez; lra).
      rewrite (Qeq_bool_of_neq _ _ He). cbn [fmax].
      assert (Hmr : bm / (c + - bm) == -1).
      { rewrite Hc. field. exact Ez. }
      destruct (Qle_bool br (bm / (c + - bm))) eqn:El.
      + apply Qle_bool_iff in El. rewrite Hmr in El. exfalso. lra.
      + cbn [fmul fadd]. eexists; split; [reflexivity|]. rewrite Hc. lra. }
  destruct Hr as (r & Er & Hr).
  unfold purchase1. rewrite Efix, Er, Ebm. cbn [truthy is_zero].
  rewrite (Qeq_bool_of_neq p 0) by lra. cbn [negb].
  destruct (Qeq_bool m 0) eqn:Em.
  - cbn [fadd fmul fdiv].
    assert (Hd : ~ p * (1 + r) == 0) by (intros E; nra).
    rewrite (Qeq_bool_of_neq _ _ Hd).
    assert (Ha : c / (p * (1 + r)) == 0).
    { rewrite Hc. field. split; lra. }
    cbn [truthy]. rewrite (Qeq_bool_of_eq _ _ Ha). cbn [negb].
    eexists; split; [reflexivity | exact Ha].
  - apply Qeq_bool_neq in Em. assert (Hm' : 0 < m).
    { destruct (Qlt_le_dec 0 m); [assumption|]. exfalso. apply Em. lra. }
    cbn [fadd fmul fdiv].
    assert (Hpm : 0 < p * m) by nra.
    assert (HD : 0 < p * m * (1 + r))
      by (apply Qmult_lt_0_compat; [exact Hpm | lra]).
    assert (Hd : ~ p * m * (1 + r) == 0) by (intros E; lra).
    rewrite (Qeq_bool_of_neq _ _ Hd). cbn [ftrunc fmul].
    assert (Hx : c / (p * m * (1 + r)) == 0).
    { rewrite Hc. field. repeat split; lra. }
    assert (Ht : inject_Z (Qtrunc (c / (p * m * (1 + r)))) == 0).
    { destruct (Qtrunc_nonneg (c / (p * m * (1 + r)))) as [T0 T1]; lra. }
    assert (Ha : inject_Z (Qtrunc (c / (p * m * (1 + r)))) * m == 0).
    { rewrite Ht. ring. }
    cbn [truthy]. rewrite (Qeq_bool_of_eq _ _ Ha). cbn [negb].
    eexists; split; [reflexivity | exact Ha].
Qed.

(** One instrument bought for a fixed fee, at a positive price and with a
    lot size that is zero or positive: either nothing is bought and
    nothing is paid, or the fee is paid once and the quantity and the fee
    fit in the budget. *)
Lemma purchase1_fixed_budget (self : Cost) (bf sl m p c : Q) :
  buy_fix self = Fin bf -> ~ bf == 0 -> slipage self = Fin sl ->
  0 < p -> 0 <= m ->
  exists a s f,
    purchase1 self (Fin m) (Fin p) (Fin c) = (Fin a, Fin s, Fin f) /\
    ((a == 0 /\ s == 0 /\ f == 0) \/
     (0 < a /\ f == bf + sl * (c * c) /\ a * p + f == - s /\ - s <= c)).
Proof.
  intros Ebf Hbf Esl Hp Hm. unfold purchase1, calculate1.
  rewrite Ebf, Esl. rewrite (is_zero_false_fin _ Hbf).
  cbn [truthy is_zero fmul fadd fsub fneg].
  rewrite (Qeq_bool_of_neq p 0) by lra. cbn [negb].
  set (ff := bf + sl * (c * c)).
  destruct (Qeq_bool m 0) eqn:Em.
  - cbn [fdiv]. rewrite (Qeq_bool_of_neq p 0) by lra.
    assert (Hx : (c + - ff) / p * p == c + - ff) by (field; lra).
    set (x := (c + - ff) / p) in *. cbn [fmax].
    destruct (Qle_bool x 0) eqn:El.
    + change (truthy (Fin 0)) with false. cbv iota.
      do 3 eexists; split; [reflexivity|]. left. repeat split; reflexivity.
    + assert (Hpos : 0 < x).
      { destruct (Qlt_le_dec 0 x); [assumption|].
        apply Qle_bool_iff in q. congruence. }
      cbn [truthy]. rewrite (Qeq_bool_of_neq x 0) by lra.
      cbn [negb fmul fadd].
      do 3 eexists; split; [reflexivity|]. right.
      repeat split; try lra; try nra; try reflexivity.
  - apply Qeq_bool_neq in Em. assert (Hm' : 0 < m).
    { destruct (Qlt_le_dec 0 m); [assumption|]. exfalso. apply Em. lra. }
    cbn [fdiv fmul].
    assert (Hpm : 0 < p * m) by nra.
    rewrite (Qeq_bool_of_neq (p * m) 0) by lra. cbn [ftrunc fmul].
    assert (Hy : (c + - ff) / (p * m) * (p * m) == c + - ff)
      by (field; split; lra).
    set (y := (c + - ff) / (p * m)) in *.
    set (t := inject_Z (Qtrunc y)). cbn [fmax].
    destruct (Qle_bool (t * m) 0) eqn:El.
    + change (truthy (Fin 0)) with false. cbv iota.
      do 3 eexists; split; [reflexivity|]. left. repeat split; reflexivity.
    + assert (Hpos : 0 < t * m).
      { destruct (Qlt_le_dec 0 (t * m)); [assumption|].
        apply Qle_bool_iff in q. congruence. }
      assert (Hy0 : 0 <= y).
      { destruct (Qlt_le_dec y 0); [|assumption].
        destruct (Qtrunc_nonpos y) as [T0 T1]; [lra|]. fold t in T0, T1.
        exfalso. nra. }
      destruct (Qtrunc_nonneg y Hy0) as [T0 T1]. fold t in T0, T1.
      assert (Hle : t * (p * m) <= y * (p * m))
        by (apply Qmult_le_compat_r; lra).
      cbn [truthy]. rewrite (Qeq_bool_of_neq (t * m) 0) by lra.
      cbn [negb fmul fadd].
      do 3 eexists; split; [reflexivity|]. right.
      repeat split; try lra; try nra; try reflexivity.
Qed.

(** Summing instruments each of which stays within its budget. *)
Lemma purchase_arrays_sums (self : Cost) (moq : fnum) (prices cash : vec) :
  Forall2 (fun p c => exists a s f cq,
             c = Fin cq /\
             purchase1 self moq p c = (Fin a, Fin s, Fin f) /\
             - s <= cq /\ s <= 0 /\ 0 <= f) prices cash ->
  exists S F B,
    fsum (snd (fst (purchase_arrays self prices cash moq))) = Fin S /\
    fsum (snd (purchase_arrays self prices cash moq)) = Fin F /\
    fsum cash = Fin B /\ - S <= B /\ S <= 0 /\ 0 <= F.
Proof.
  induction 1 as [|p c prices cash (a & s & f & cq & -> & E1 & H1 & H2 & H3)
                    _ (S & F & B & ES & EF & EB & I1 & I2 & I3)].
  - rewrite purchase_arrays_nil_l. exists 0, 0, 0.
    repeat split; try reflexivity; lra.
  - rewrite purchase_arrays_cons, E1.
    destruct (purchase_arrays self prices cash moq) as [[al sl] fl].
    cbn [fst snd] in *. cbn [fsum fold_right].
    change (fold_right fadd (Fin 0) sl) with (fsum sl).
    change (fold_right fadd (Fin 0) fl) with (fsum fl).
    change (fold_right fadd (Fin 0) cash) with (fsum cash).
    rewrite ES, EF, EB. cbn [fadd].
    do 3 eexists. repeat split; try reflexivity; lra.
Qed.

(** X2.  Buying at rates (no fixed fee) under non-negative coefficients,
    at a positive price and with a lot size that is zero or positive: an
    instrument whose budget exceeds the minimum fee gets a non-negative
    quantity and a fee that, once something is bought, is at least the
    minimum fee; quantity times price plus fee is what is spent, and that
    is at most the budget.  Without a lot size the budget is spent
    exactly. *)
Theorem purchase_rate_budget (self : Cost) (prices cash_to_spend : vec)
        (i : nat) (br sl bm m p c : Q) :
  is_zero (buy_fix self) = true ->
  buy_rate self = Fin br -> slipage self = Fin sl -> buy_min self = Fin bm ->
  0 <= br -> 0 <= sl -> 0 <= bm -> 0 <= m ->
  nth_error prices i = Some (Fin p) -> 0 < p ->
  nth_error cash_to_spend i = Some (Fin c) -> bm < c ->
  let '(a_purchased, cash_spent, fees) :=
    purchase_arrays self prices cash_to_spend (Fin m) in
  get_purchase_result self prices cash_to_spend (Fin m)
  = (a_purchased, fsum cash_spent, fsum fees) /\
  exists a s f,
    nth_error a_purchased i = Some (Fin a) /\
    nth_error cash_spent i = Some (Fin s) /\
    nth_error fees i = Some (Fin f) /\
    0 <= a /\ 0 <= f /\ a * p + f == - s /\ - s <= c /\
    (0 < a -> bm <= f) /\
    (m == 0 -> - s == c /\ 0 < a).
Proof.
  intros Efix Ebr Esl Ebm Hbr Hsl Hbm Hm Hp Hp0 Hc Hc0.
  pose proof (purchase_arrays_nth_error self (Fin m) _ _ _ _ _ Hp Hc) as H.
  pose proof (get_purchase_result_arrays self prices cash_to_spend (Fin m))
    as G.
  destruct (purchase1_rate_budget self br sl bm m p c Efix Ebr Esl Ebm
              Hbr Hsl Hbm Hc0 Hp0 Hm) as (a & s & f & E & Hfacts).
  rewrite E in H.
  destruct (purchase_arrays self prices cash_to_spend (Fin m)) as [[al sl'] fl].
  cbn [fst snd] in *. split; [exact G|].
  exists a, s, f. tauto.
Qed.

Lemma purchase_rate_budget_witness :
  exists a s f,
    nth_error (fst (fst (purchase_arrays default_Cost [Fin 10] [Fin 40000]
                           (Fin 100)))) 0 = Some (Fin a) /\
    nth_error (snd (fst (purchase_arrays default_Cost [Fin 10] [Fin 40000]
                           (Fin 100)))) 0 = Some (Fin s) /\
    nth_error (snd (purchase_arrays default_Cost [Fin 10] [Fin 40000]
                           (Fin 100))) 0 = Some (Fin f) /\
    - s <= 40000 /\ a * 10 + f == - s.
Proof.
  pose proof (purchase_rate_budget default_Cost [Fin 10] [Fin 40000] 0
                (3 # 1000) 0 5 100 10 40000 eq_refl eq_refl eq_refl eq_refl)
    as H.
  destruct (purchase_arrays default_Cost [Fin 10] [Fin 40000] (Fin 100))
    as [[al sl] fl].
  destruct H as (_ & a & s & f & Ha & Hs & Hf & _ & _ & E & B & _);
    try reflexivity; try (intro Hd; discriminate Hd).
  exists a, s, f. cbn [fst snd]. repeat split; assumption.
Defined.

(** X3.  Buying at rates under non-negative coefficients, at positive
    prices and with a lot size that is zero or positive: when every
    budget is either zero or above the minimum fee, the cash that
    [get_purchase_result] spends in total is at most the sum of the
    budgets (and the total fee is not negative). *)
Theorem purchase_rate_total_within_budget (self : Cost)
        (prices cash_to_spend : vec) (br sl bm m : Q) :
  is_zero (buy_fix self) = true ->
  buy_rate self = Fin br -> slipage self = Fin sl -> buy_min self = Fin bm ->
  0 <= br -> 0 <= sl -> 0 <= bm -> 0 <= m ->
  Forall2 (fun p c => exists pq cq,
             p = Fin pq /\ c = Fin cq /\ 0 < pq /\ (cq == 0 \/ bm < cq))
          prices cash_to_spend ->
  exists a_purchased S F B,
    get_purchase_result self prices cash_to_spend (Fin m)
    = (a_purchased, Fin S, Fin F) /\
    fsum cash_to_spend = Fin B /\
    0 <= - S /\ - S <= B /\ 0 <= F.
Proof.
  intros Efix Ebr Esl Ebm Hbr Hsl Hbm Hm Hall.
  destruct (purchase_arrays_sums self (Fin m) prices cash_to_spend)
    as (S & F & B & ES & EF & EB & I1 & I2 & I3).
  { eapply Forall2_impl; [|exact Hall]. cbv beta.
    intros p c (pq & cq & -> & -> & Hp & [Hz | Hc]).
    - destruct (purchase1_rate_no_budget self br sl bm m pq cq Efix Ebr Esl
                  Ebm Hbr Hbm Hp Hm Hz) as (a & E & Ha).
      exists a, 0, 0, cq. repeat split; try exact E; lra.
    - destruct (purchase1_rate_budget self br sl bm m pq cq Efix Ebr Esl Ebm
                  Hbr Hsl Hbm Hc Hp Hm)
        as (a & s & f & E & Ha & Hf & Hs & Hb & _).
      exists a, s, f, cq. repeat split; try exact E; try lra. nra. }
  rewrite get_purchase_result_arrays, ES, EF.
  do 4 eexists. split; [reflexivity|]. repeat split; try exact EB; lra.
Qed.

Lemma purchase_rate_total_within_budget_witness :
  exists a_purchased S F B,
    get_purchase_result default_Cost [Fin 10; Fin 20] [Fin 40000; Fin 0]
                        (Fin 100) = (a_purchased, Fin S, Fin F) /\
    fsum [Fin 40000; Fin 0] = Fin B /\ - S <= B.
Proof.
  destruct (purchase_rate_total_within_budget default_Cost
              [Fin 10; Fin 20] [Fin 40000; Fin 0] (3 # 1000) 0 5 100
              eq_refl eq_refl eq_refl eq_refl)
    as (a & S & F & B & E & EB & _ & HB & _);
    try (intro Hd; discriminate Hd).
  - constructor; [|constructor; [|constructor]].
    + exists 10, 40000. split; [reflexivity|]. split; [reflexivity|].
      split; [reflexivity | right; reflexivity].
    + exists 20, 0. split; [reflexivity|]. split; [reflexivity|].
      split; [reflexivity | left; reflexivity].
  - exists a, S, F, B. split; [exact E|]. split; [exact EB | exact HB].
Defined.

(** X4.  Buying for a fixed fee, at a positive price and with a lot size
    that is zero or positive: for every instrument, either nothing is
    bought and neither cash nor fee is charged, or a positive quantity is
    bought, the fee [buy_fix + slipage * budget^2] is charged once, and
    quantity times price plus fee, which is what is spent, is at most the
    budget. *)
Theorem purchase_fixed_fee_budget (self : Cost) (prices cash_to_spend : vec)
        (i : nat) (bf sl m p c : Q) :
  buy_fix self = Fin bf -> ~ bf == 0 -> slipage self = Fin sl -> 0 <= m ->
  nth_error prices i = Some (Fin p) -> 0 < p ->
  nth_error cash_to_spend i = Some (Fin c) ->
  let '(a_purchased, cash_spent, fees) :=
    purchase_arrays self prices cash_to_spend (Fin m) in
  get_purchase_result self prices cash_to_spend (Fin m)
  = (a_purchased, fsum cash_spent, fsum fees) /\
  exists a s f,
    nth_error a_purchased i = Some (Fin a) /\
    nth_error cash_spent i = Some (Fin s) /\
    nth_error fees i = Some (Fin f) /\
    ((a == 0 /\ s == 0 /\ f == 0) \/
     (0 < a /\ f == bf + sl * (c * c) /\ a * p + f == - s /\ - s <= c)).
Proof.
  intros Ebf Hbf Esl Hm Hp Hp0 Hc.
  pose proof (purchase_arrays_nth_error self (Fin m) _ _ _ _ _ Hp Hc) as H.
  pose proof (get_purchase_result_arrays self prices cash_to_spend (Fin m))
    as G.
  destruct (purchase1_fixed_budget self bf sl m p c Ebf Hbf Esl Hp0 Hm)
    as (a & s & f & E & Hfacts).
  rewrite E in H.
  destruct (purchase_arrays self prices cash_to_spend (Fin m)) as [[al sl'] fl].
  cbn [fst snd] in *. split; [exact G|].
  exists a, s, f. tauto.
Qed.

Lemma purchase_fixed_fee_budget_witness :
  exists a s f,
    nth_error (fst (fst (purchase_arrays
        (mkCost (Fin 5) (Fin 0) (Fin 0) (Fin 0) (Fin 0) (Fin 0) (Fin 0))
        [Fin 10] [Fin 4] (Fin 0)))) 0 = Some (Fin a) /\
    nth_error (snd (fst (purchase_arrays
        (mkCost (Fin 5) (Fin 0) (Fin 0) (Fin 0) (Fin 0) (Fin 0) (Fin 0))
        [Fin 10] [Fin 4] (Fin 0)))) 0 = Some (Fin s) /\
    nth_error (snd (purchase_arrays
        (mkCost (Fin 5) (Fin 0) (Fin 0) (Fin 0) (Fin 0) (Fin 0) (Fin 0))
        [Fin 10] [Fin 4] (Fin 0))) 0 = Some (Fin f) /\
    ((a == 0 /\ s == 0 /\ f == 0) \/ (0 < a /\ - s <= 4)).
Proof.
  pose proof (purchase_fixed_fee_budget
                (mkCost (Fin 5) (Fin 0) (Fin 0) (Fin 0) (Fin 0) (Fin 0) (Fin 0))
                [Fin 10] [Fin 4] 0 5 0 0 10 4 eq_refl) as H.
  destruct (purchase_arrays
              (mkCost (Fin 5) (Fin 0) (Fin 0) (Fin 0) (Fin 0) (Fin 0) (Fin 0))
              [Fin 10] [Fin 4] (Fin 0)) as [[al sl] fl].
  destruct H as (_ & a & s & f & Ha & Hs & Hf & Hcase);
    try reflexivity; try (intro Hd; discriminate Hd).
  exists a, s, f. cbn [fst snd]. repeat split; try assumption.
  destruct Hcase as [H0 | (Hpos & _ & _ & Hb)]; [left | right]; tauto.
Defined.

(* ================================================================== *)
(** * Further properties of the back-test loop *)

Lemma merge_step_only ol d x :
  In x (index (merge_step ol d)) -> In x (index ol) \/ x = d.
Proof.
  unfold merge_step, index. destruct (has_label d (rows ol)); [tauto|].
  simpl. rewrite map_app, in_app_iff. simpl. intuition.
Qed.

Lemma merge_fold_only ds ol x :
  In x (index (fold_left merge_step ds ol)) -> In x (index ol) \/ In x ds.
Proof.
  revert ol; induction ds as [|d ds IH]; intros ol H; simpl in *; [tauto|].
  apply IH in H as [H | H]; [|tauto].
  apply merge_step_only in H. intuition.
Qed.

Lemma merge_invest_dates_index_iff op_list invest d :
  In d (index (_merge_invest_dates op_list invest)) <->
  In d (index op_list) \/ In d (dates invest).
Proof.
  split.
  - intros H. unfold _merge_invest_dates, index in H.
    apply (Permutation_in _ (Permutation_map fst (sort_index_perm _))) in H.
    now apply merge_fold_only in H.
  - intros H. apply merge_invest_dates_index. tauto.
Qed.

(** A table that is sorted by date is left as it is by [sort_index]. *)
Lemma sort_index_sorted_id (rs : list (date * vec)) :
  StronglySorted Z.le (map fst rs) -> fold_right insert_row [] rs = rs.
Proof.
  induction rs as [|r rs IH]; simpl; intros H; [reflexivity|].
  apply StronglySorted_inv in H as [H1 H2]. rewrite (IH H1).
  destruct rs as [|r' rs]; [reflexivity|]. simpl.
  apply Forall_inv in H2. apply Z.leb_le in H2. now rewrite H2.
Qed.

Lemma merge_fold_present ds ol :
  (forall d, In d ds -> In d (index ol)) -> fold_left merge_step ds ol = ol.
Proof.
  induction ds as [|d ds IH]; intros H; simpl; [reflexivity|].
  assert (E : merge_step ol d = ol).
  { unfold merge_step.
    assert (Hd : has_label d (rows ol) = true)
      by (apply has_label_In, H; now left).
    now rewrite Hd. }
  rewrite E. apply IH. intros; apply H; now right.
Qed.

(** X5.  [_merge_invest_dates] is idempotent: a table that has been merged
    with a cash plan is left as it is when the same plan is merged into it
    again. *)
Theorem merge_invest_dates_idempotent (op_list : DataFrame)
        (invest : CashPlan) :
  _merge_invest_dates (_merge_invest_dates op_list invest) invest
  = _merge_invest_dates op_list invest.
Proof.
  set (merged := _merge_invest_dates op_list invest).
  unfold _merge_invest_dates at 1.
  rewrite merge_fold_present.
  - unfold sort_index. rewrite sort_index_sorted_id.
    + destruct merged; reflexivity.
    + apply (sort_index_sorted (fold_left merge_step (dates invest) op_list)).
  - intros d Hd. apply merge_invest_dates_index. now left.
Qed.

Lemma insert_row_In r rs x : In x (insert_row r rs) <-> x = r \/ In x rs.
Proof.
  split; intros H.
  - apply (Permutation_in _ (insert_row_perm r rs)) in H.
    destruct H; [left; congruence | now right].
  - apply (Permutation_in _ (Permutation_sym (insert_row_perm r rs))).
    destruct H; [left; congruence | now right].
Qed.



(* ================================================================== *)
(** * The back-test loop *)

(** *** Reading the prices *)

Lemma fillna0_rows_labels (df : DataFrame) :
  map fst (rows (fillna0 df)) = index df.
Proof. unfold fillna0, index. cbn [rows]. now rewrite map_map. Qed.

Lemma has_label_fillna0 (df : DataFrame) (d : date) :
  has_label d (rows (fillna0 df)) = true <-> In d (index df).
Proof. now rewrite has_label_In, fillna0_rows_labels. Qed.

(** [.loc] raises exactly when a label is missing, and names the missing
    labels. *)
Lemma loc_outcome (df : DataFrame) (labels : list date) :
  let missing := filter (fun d => negb (has_label d (rows df))) labels in
  (forall x, In x missing <-> In x labels /\ ~ In x (map fst (rows df))) /\
  loc df labels =
  match missing with
  | [] =>
      Ok (flat_map (fun d => filter (fun r => Z.eqb (fst r) d) (rows df))
                   labels)
  | _ => Raise (KeyError missing)
  end.
Proof.
  cbv zeta. split.
  - intros x. rewrite filter_In, negb_true_iff, <- has_label_In.
    destruct (has_label x (rows df)); intuition congruence.
  - unfold loc.
    now destruct (filter (fun d => negb (has_label d (rows df))) labels).
Qed.

Lemma filter_head {A : Type} (p : A -> bool) (l : list A) :
  existsb p l = true ->
  exists x rest, filter p l = x :: rest /\ In x l /\ p x = true.
Proof.
  induction l as [|a l IH]; cbn; [discriminate|].
  destruct (p a) eqn:E.
  - intros _. exists a, (filter p l). auto.
  - cbn. intros H. destruct (IH H) as (x & rest & E1 & Hin & Hp).
    exists x, rest. auto.
Qed.

(** *** The loop *)

(** The loop ends in its first period. *)
Lemma loop_first_period rate factors pos dict cost moq i d op_i price_i todo
      cash holdings :
  loop rate factors pos dict cost moq i ((d, op_i, price_i) :: todo)
       cash holdings
  = match broadcast fmul holdings price_i with
    | Ok _ =>
        Raise (TypeError (UnexpectedKeyword "get_selling_result" "op"))
    | Raise e => Raise e
    end.
Proof.
  cbn [loop]. rewrite loop_step_raises.
  now destruct (broadcast fmul holdings price_i).
Qed.

(** What the loop can raise. *)
Lemma loop_errors rate factors pos dict cost moq i todo cash holdings e :
  loop rate factors pos dict cost moq i todo cash holdings = Raise e ->
  (exists why, e = TypeError why) \/ (exists msg, e = ValueError msg).
Proof.
  destruct todo as [|[[d op_i] price_i] todo]; [discriminate|].
  rewrite loop_first_period.
  destruct (broadcast fmul holdings price_i) eqn:E.
  - intros [= <-]. left. eauto.
  - intros [= <-]. right. exact (broadcast_error _ _ _ _ E).
Qed.

Lemma merged_index_nonempty (op_list : DataFrame) (cp : CashPlan) :
  empty op_list = false -> index (_merge_invest_dates op_list cp) <> [].
Proof.
  unfold empty. intros H. apply orb_false_iff in H as [H _].
  apply Nat.eqb_neq in H.
  destruct (rows op_list) as [|[d v] rs] eqn:E; [contradiction|].
  assert (Hin : In d (index (_merge_invest_dates op_list cp))).
  { apply merge_invest_dates_index. right. unfold index. rewrite E. now left. }
  intros E0. rewrite E0 in Hin. contradiction.
Qed.

Lemma to_dict_positions (cp : CashPlan) (l : list date) :
  to_dict cp (map (searchsorted l) (dates cp))
  = Ok (combine (map (searchsorted l) (dates cp)) (amounts cp)).
Proof.
  unfold to_dict, dates, amounts. now rewrite !length_map, Nat.eqb_refl.
Qed.

(** [apply_loop] once its three assertions have passed. *)
Lemma apply_loop_checked (op_list history_list : DataFrame) (cp : CashPlan)
      (cost : Cost) (moq rate : fnum) :
  empty op_list = false ->
  let merged := _merge_invest_dates op_list cp in
  let missing :=
    filter (fun d => negb (has_label d (rows (fillna0 history_list))))
           (index merged) in
  apply_loop op_list history_list (Some cp) (Some cost) moq rate
  = match missing with
    | [] =>
        match
          flat_map (fun d => filter (fun r => Z.eqb (fst r) d)
                                    (rows (fillna0 history_list)))
                   (index merged)
        with
        | [] => Ok []
        | r :: _ =>
            match broadcast fmul (repeat (Fin 0) (ncols history_list))
                            (snd r) with
            | Ok _ =>
                Raise (TypeError (UnexpectedKeyword "get_selling_result" "op"))
            | Raise e => Raise e
            end
        end
    | _ => Raise (KeyError missing)
    end.
Proof.
  intros He. cbv zeta. unfold apply_loop. rewrite He.
  destruct (loc_outcome (fillna0 history_list)
              (index (_merge_invest_dates op_list cp))) as [_ ->].
  destruct (filter _ (index (_merge_invest_dates op_list cp)));
    [|reflexivity].
  cbn [bind]. rewrite to_dict_positions. cbn [bind].
  pose proof (merged_index_nonempty op_list cp He) as Hne.
  unfold index, values in *.
  destruct (rows (_merge_invest_dates op_list cp)) as [|[d1 o1] rs];
    [contradiction|].
  cbn [map flat_map].
  match goal with
  | |- context [?a ++ ?b] => destruct (a ++ b) as [|r price]
  end; [reflexivity|].
  cbn [map combine]. rewrite loop_first_period. unfold date in *.
  destruct (broadcast fmul (repeat (Fin 0) (ncols history_list)) (snd r));
    reflexivity.
Qed.

(** C5.  A cash plan with a date that the price table lacks is rejected
    before the loop.  When the signal table is empty or the cost model is
    missing, [apply_loop] fails in its assertions; otherwise it fails
    where it reads the prices of the merged dates, with the [KeyError] of
    [.loc], which names the dates of the signal table and of the cash
    plan that the price table lacks, the date in question among them.
    Both failures come before the loop, which for its part raises
    nothing but a [TypeError] or a [ValueError]; no trace is returned. *)
Theorem apply_loop_rejects_missing_price_date
        (op_list history_list : DataFrame) (cash_plan : CashPlan)
        (cost_rate : option Cost) (moq inflation_rate : fnum) (d : date) :
  In d (dates cash_plan) -> ~ In d (index history_list) ->
  (exists e,
      apply_loop op_list history_list (Some cash_plan) cost_rate moq
                 inflation_rate = Raise e /\
      ((exists msg, e = AssertionError msg /\
                    (empty op_list = true \/ cost_rate = None)) \/
       (exists missing,
           e = KeyError missing /\ In d missing /\
           empty op_list = false /\ cost_rate <> None /\
           forall x, In x missing <->
                     (In x (index op_list) \/ In x (dates cash_plan)) /\
                     ~ In x (index history_list)))) /\
  (forall rate factors pos dict cost moq' i todo cash holdings e,
      loop rate factors pos dict cost moq' i todo cash holdings = Raise e ->
      (exists why, e = TypeError why) \/ (exists msg, e = ValueError msg)).
Proof.
  intros Hd Hmiss. split; [|intros; eapply loop_errors; eassumption].
  destruct (empty op_list) eqn:He.
  { eexists. split; [unfold apply_loop; rewrite He; reflexivity|].
    left. eauto. }
  destruct cost_rate as [cost|].
  2:{ eexists. split; [unfold apply_loop; rewrite He; reflexivity|].
      left. eauto. }
  rewrite (apply_loop_checked op_list history_list cash_plan cost moq
             inflation_rate He).
  destruct (loc_outcome (fillna0 history_list)
              (index (_merge_invest_dates op_list cash_plan))) as [Hin _].
  cbv zeta in Hin.
  set (missing := filter _ (index (_merge_invest_dates op_list cash_plan)))
    in *.
  assert (Hchar : forall x, In x missing <->
             (In x (index op_list) \/ In x (dates cash_plan)) /\
             ~ In x (index history_list)).
  { intros x. rewrite Hin, fillna0_rows_labels.
    split; intros [H1 H2]; (split; [|exact H2]).
    - apply merge_invest_dates_index_iff in H1. tauto.
    - apply merge_invest_dates_index_iff. tauto. }
  assert (Hdm : In d missing) by (apply Hchar; tauto).
  destruct missing as [|m ms] eqn:Em; [contradiction|].
  eexists. split; [reflexivity|]. right.
  exists (m :: ms). repeat split; try assumption; try discriminate;
    apply Hchar; assumption.
Qed.

Lemma apply_loop_rejects_missing_price_date_witness :
  exists missing,
    apply_loop unaligned_signals unaligned_prices (Some unaligned_plan)
               (Some default_Cost) (Fin 100) (Fin 0)
    = Raise (KeyError missing) /\ In 5%Z missing.
Proof.
  destruct (apply_loop_rejects_missing_price_date unaligned_signals
              unaligned_prices unaligned_plan (Some default_Cost)
              (Fin 100) (Fin 0) 5%Z) as [(e & Hrun & Hcase) _].
  - cbn. left. reflexivity.
  - cbn. intros [H | [H | []]]; discriminate H.
  - destruct Hcase as [(msg & _ & [H | H]) | (missing & -> & Hin & _)];
      [discriminate H | discriminate H |].
    exists missing. split; [exact Hrun | exact Hin].
Defined.

Lemma fillna0_row_length (df : DataFrame) (r : date * vec) :
  Forall (fun r => List.length (snd r) = ncols df) (rows df) ->
  In r (rows (fillna0 df)) -> List.length (snd r) = ncols df.
Proof.
  intros Hall Hin. unfold fillna0 in Hin. cbn [rows] in Hin.
  apply in_map_iff in Hin as (r0 & <- & Hin). cbn [snd].
  rewrite length_map. rewrite Forall_forall in Hall. now apply Hall.
Qed.

(** X7.  [apply_loop] returns no trace.  On a price table whose rows all
    have the width of the table, every call ends in one of three errors:
    an assertion error when the signal table is empty or the cost model
    or the cash plan is missing; else the [KeyError] of [.loc] when a
    date of the signal table or of the cash plan is absent from the
    price table; else, all dates being present, the [TypeError] of the
    sale call of the first trade step. *)
Theorem apply_loop_outcome (op_list history_list : DataFrame)
        (cash_plan : option CashPlan) (cost_rate : option Cost)
        (moq inflation_rate : fnum) :
  Forall (fun r => List.length (snd r) = ncols history_list)
         (rows history_list) ->
  exists e,
    apply_loop op_list history_list cash_plan cost_rate moq inflation_rate
    = Raise e /\
    match e with
    | AssertionError _ =>
        empty op_list = true \/ cost_rate = None \/ cash_plan = None
    | KeyError missing =>
        empty op_list = false /\ cost_rate <> None /\
        exists cp,
          cash_plan = Some cp /\ missing <> [] /\
          forall x, In x missing <->
                    (In x (index op_list) \/ In x (dates cp)) /\
                    ~ In x (index history_list)
    | TypeError why =>
        why = UnexpectedKeyword "get_selling_result" "op" /\
        empty op_list = false /\ cost_rate <> None /\
        exists cp,
          cash_plan = Some cp /\
          forall x, In x (index op_list) \/ In x (dates cp) ->
                    In x (index history_list)
    | _ => False
    end.
Proof.
  intros Hshape.
  destruct (empty op_list) eqn:He.
  { eexists. split; [unfold apply_loop; rewrite He; reflexivity|].
    cbn. now left. }
  destruct cost_rate as [cost|].
  2:{ eexists. split; [unfold apply_loop; rewrite He; reflexivity|].
      cbn. right. now left. }
  destruct cash_plan as [cp|].
  2:{ eexists. split; [unfold apply_loop; rewrite He; reflexivity|].
      cbn. right. now right. }
  rewrite (apply_loop_checked op_list history_list cp cost moq
             inflation_rate He).
  destruct (loc_outcome (fillna0 history_list)
              (index (_merge_invest_dates op_list cp))) as [Hin _].
  cbv zeta in Hin.
  pose proof (merged_index_nonempty op_list cp He) as Hne.
  set (labels := index (_merge_invest_dates op_list cp)) in *.
  set (missing := filter _ labels) in *.
  assert (Hchar : forall x, In x missing <->
             (In x (index op_list) \/ In x (dates cp)) /\
             ~ In x (index history_list)).
  { intros x. rewrite Hin, fillna0_rows_labels. unfold labels.
    rewrite merge_invest_dates_index_iff. tauto. }
  destruct missing as [|m ms] eqn:Em.
  - assert (Hall : forall x, In x labels -> In x (index history_list)).
    { intros x Hx.
      destruct (in_dec Z.eq_dec x (index history_list)) as [H | H];
        [exact H|].
      exfalso. apply (proj2 (Hin x)). split; [exact Hx|].
      now rewrite fillna0_rows_labels. }
    destruct labels as [|d1 ls] eqn:El; [contradiction|].
    cbn [flat_map].
    destruct (filter_head (fun r => Z.eqb (fst r) d1)
                (rows (fillna0 history_list))) as (r & rest & Er & Hr & _).
    { apply has_label_fillna0. apply Hall. now left. }
    unfold date in *. rewrite Er. cbn [app].
    rewrite broadcast_same_length.
    2:{ rewrite repeat_length. symmetry.
        now apply fillna0_row_length. }
    eexists. split; [reflexivity|]. cbn.
    split; [reflexivity|]. split; [reflexivity|]. split; [discriminate|].
    exists cp. split; [reflexivity|].
    intros x Hx. apply Hall. rewrite <- El. unfold labels.
    now apply merge_invest_dates_index_iff.
  - eexists. split; [reflexivity|]. cbn.
    split; [reflexivity|]. split; [discriminate|].
    exists cp. split; [reflexivity|]. split; [discriminate | exact Hchar].
Qed.

Lemma apply_loop_outcome_witness :
  apply_loop growth_signals growth_prices (Some growth_plan) (Some free_Cost)
             (Fin 0) (Fin (1 # 10))
  = Raise (TypeError (UnexpectedKeyword "get_selling_result" "op")).
Proof.
  destruct (apply_loop_outcome growth_signals growth_prices (Some growth_plan)
              (Some free_Cost) (Fin 0) (Fin (1 # 10)))
    as (e & Hrun & He).
  - repeat constructor.
  - rewrite Hrun. f_equal.
    destruct e as [msg|msg|msg|missing|callee];
      try contradiction.
    + destruct He as [H | [H | H]]; discriminate H.
    + destruct He as [-> _]. reflexivity.
    + exfalso. destruct He as (_ & _ & cp & Hcp & Hne & Hm).
      injection Hcp as <-.
      destruct missing as [|m ms]; [contradiction|].
      destruct (proj1 (Hm m) (or_introl eq_refl)) as [_ Habs].
      apply Habs. cbn.
      destruct (proj1 (Hm m) (or_introl eq_refl)) as [[H | H] _];
        cbn in H; tauto.
Defined.

(* ------------------------------------------------------------------ *)
(** ** The growth of the cash *)




(* ================================================================== *)
(** * The parameter vector of a search *)

Module OperatorFacts.
Import Operator.

Section Facts.

Context {bound A : Type}.

Lemma firstn_plus (n m : nat) (l : list A) :
  firstn (n + m) l = firstn n l ++ firstn m (skipn n l).
Proof.
  revert l; induction n as [|n IH]; intros [|x l]; cbn;
    try reflexivity.
  - now rewrite firstn_nil.
  - now rewrite IH.
Qed.

Lemma set_opt_par_loop_spec (strategies : list (Strategy bound))
      (opt_par : list A) (pos s : nat) calls :
  set_opt_par_loop pos s s strategies opt_par = Some calls ->
  List.concat (map (fun c => arg_entries (snd c)) calls)
  = firstn (taken_up strategies) (skipn s opt_par) /\
  map fst calls = tagged_from pos strategies.
Proof.
  revert pos s calls.
  induction strategies as [|stg rest IH]; intros pos s calls; cbn.
  - intros [= <-]. split; reflexivity.
  - destruct (Z.eqb (opt_tag stg) 0) eqn:E0.
    + apply Z.eqb_eq in E0. rewrite E0. cbn. apply IH.
    + destruct (Z.eqb (opt_tag stg) 1) eqn:E1; cbn.
      * destruct (set_opt_par_loop (S pos) (s + par_count stg)
                    (s + par_count stg) rest opt_par) as [calls'|] eqn:E;
          [|discriminate].
        intros [= <-]. destruct (IH _ _ _ E) as [H1 H2]. cbn.
        rewrite H1, H2. split; [|reflexivity].
        replace (s + par_count stg - s)%nat with (par_count stg) by lia.
        rewrite (Nat.add_comm s), <- skipn_skipn.
        symmetry. apply firstn_plus.
      * destruct (Z.eqb (opt_tag stg) 2) eqn:E2; cbn.
        -- destruct (nth_error opt_par s) as [a|] eqn:Ea; [|discriminate].
           destruct (set_opt_par_loop (S pos) (s + 1) (s + 1) rest opt_par)
             as [calls'|] eqn:E; [|discriminate].
           intros [= <-]. destruct (IH _ _ _ E) as [H1 H2]. cbn.
           rewrite H1, H2. split; [|reflexivity].
           rewrite (Nat.add_comm s), <- skipn_skipn.
           assert (Hs : skipn s opt_par = a :: skipn 1 (skipn s opt_par)).
           { clear -Ea. revert s Ea.
             induction opt_par as [|x l IHl]; intros [|s]; cbn;
               try discriminate.
             - now intros [= ->].
             - intros H. rewrite (IHl _ H) at 1. reflexivity. }
           rewrite Hs at 2. reflexivity.
        -- apply IH.
Qed.

Lemma set_opt_par_loop_runs (strategies : list (Strategy bound))
      (opt_par : list A) (pos s : nat) :
  (s + taken_up strategies <= List.length opt_par)%nat ->
  exists calls, set_opt_par_loop pos s s strategies opt_par = Some calls.
Proof.
  revert s pos.
  induction strategies as [|stg rest IH]; intros s pos Hl; cbn in *.
  - eauto.
  - destruct (Z.eqb (opt_tag stg) 0) eqn:E0.
    + apply Z.eqb_eq in E0. rewrite E0 in Hl. cbn in Hl. now apply IH.
    + destruct (Z.eqb (opt_tag stg) 1) eqn:E1.
      * destruct (IH (s + par_count stg)%nat (S pos)) as [calls ->];
          [lia | eauto].
      * destruct (Z.eqb (opt_tag stg) 2) eqn:E2.
        -- destruct (nth_error opt_par s) as [a|] eqn:Ea.
           ++ destruct (IH (s + 1)%nat (S pos)) as [calls ->];
                [lia | eauto].
           ++ apply nth_error_None in Ea. lia.
        -- now apply IH.
Qed.

(** X10.  When [set_opt_par] runs through, the arguments that it passes to
    [set_pars], put end to end, are the first entries of the parameter
    vector, as many as the strategies take up: every strategy tagged 1 or
    2, and no other, gets the next entries, in order, with no entry used
    twice and none skipped.  It runs through whenever the vector has at
    least as many entries as the strategies take up. *)
Theorem set_opt_par_partition (strategies : list (Strategy bound))
        (opt_par : list A) :
  (forall calls,
      set_opt_par strategies opt_par = Some calls ->
      List.concat (map (fun c => arg_entries (snd c)) calls)
      = firstn (taken_up strategies) opt_par /\
      map fst calls = tagged_from 0 strategies) /\
  ((taken_up strategies <= List.length opt_par)%nat ->
   exists calls, set_opt_par strategies opt_par = Some calls).
Proof.
  split.
  - intros calls H.
    apply (set_opt_par_loop_spec strategies opt_par 0 0 calls H).
  - intros Hl. unfold set_opt_par.
    apply set_opt_par_loop_runs. lia.
Qed.

(** X11.  The space that [opt_space_par] describes has one dimension for
    each bound of a strategy tagged 1 and one for each strategy tagged 2.
    When every strategy tagged 1 has as many bounds, and as many types,
    as parameters, the space has as many types as ranges, and
    [set_opt_par] hands out the whole of a vector of that dimension. *)
Theorem opt_space_par_dimension (strategies : list (Strategy bound))
        (opt_par : list A) :
  Forall (fun stg => opt_tag stg = 1%Z ->
                     List.length (par_boes stg) = par_count stg /\
                     List.length (par_types stg) = par_count stg)
         strategies ->
  List.length opt_par = List.length (fst (opt_space_par strategies)) ->
  List.length (fst (opt_space_par strategies)) = taken_up strategies /\
  List.length (snd (opt_space_par strategies)) = taken_up strategies /\
  exists calls,
    set_opt_par strategies opt_par = Some calls /\
    List.concat (map (fun c => arg_entries (snd c)) calls) = opt_par.
Proof.
  intros Hall Hlen.
  assert (Hdim : List.length (fst (opt_space_par strategies))
                 = taken_up strategies /\
                 List.length (snd (opt_space_par strategies))
                 = taken_up strategies).
  { clear Hlen. induction Hall as [|stg rest Hstg _ IH]; cbn; [auto|].
    destruct (opt_space_par rest) as [ranges types]. cbn [fst snd] in *.
    destruct IH as [IH1 IH2].
    destruct (Z.eqb (opt_tag stg) 0) eqn:E0.
    - apply Z.eqb_eq in E0. rewrite E0. cbn. auto.
    - destruct (Z.eqb (opt_tag stg) 1) eqn:E1; cbn [fst snd].
      + apply Z.eqb_eq in E1. destruct (Hstg E1) as [L1 L2].
        rewrite !length_app, length_map. lia.
      + destruct (Z.eqb (opt_tag stg) 2); cbn; auto. }
  split; [tauto|]. split; [tauto|].
  destruct Hdim as [Hdim _]. rewrite Hdim in Hlen.
  destruct (set_opt_par_loop_runs strategies opt_par 0 0) as [calls Hcalls];
    [lia|].
  exists calls. split; [exact Hcalls|].
  destruct (set_opt_par_loop_spec strategies opt_par 0 0 calls Hcalls)
    as [-> _].
  apply firstn_all2. lia.
Qed.

End Facts.
End OperatorFacts.

Lemma opt_space_par_dimension_witness :
  exists calls,
    Operator.set_opt_par
      [Operator.mkStrategy 1%Z 2 [(1, 10); (2, 20)]%Z ["discr"; "discr"]%string;
       Operator.mkStrategy 0%Z 3 [(0, 1); (0, 1); (0, 1)]%Z [];
       Operator.mkStrategy 2%Z 3 [(0, 1); (5, 7)]%Z []]
      [11; 12; 13]%Z = Some calls /\
    List.concat (map (fun c => Operator.arg_entries (snd c)) calls) = [11; 12; 13]%Z.
Proof.
  refine (proj2 (proj2 (OperatorFacts.opt_space_par_dimension
    [Operator.mkStrategy 1%Z 2 [(1, 10); (2, 20)]%Z ["discr"; "discr"]%string;
     Operator.mkStrategy 0%Z 3 [(0, 1); (0, 1); (0, 1)]%Z [];
     Operator.mkStrategy 2%Z 3 [(0, 1); (5, 7)]%Z []]
    [11; 12; 13]%Z _ eq_refl))).
  apply Forall_cons; [intros _; split; reflexivity|].
  apply Forall_cons; [intros H; discriminate H|].
  apply Forall_cons; [intros H; discriminate H | apply Forall_nil].
Defined.

Lemma set_opt_par_partition_witness :
  exists calls,
    Operator.set_opt_par
      [Operator.mkStrategy 1%Z 2 [(1, 10); (2, 20)]%Z ["discr"; "discr"]%string;
       Operator.mkStrategy 0%Z 3 [(0, 1); (0, 1); (0, 1)]%Z [];
       Operator.mkStrategy 2%Z 3 [(0, 1); (5, 7)]%Z []]
      [11; 12; 13; 14]%Z = Some calls /\
    List.concat (map (fun c => Operator.arg_entries (snd c)) calls)
    = [11; 12; 13]%Z /\
    map fst calls = [0; 2]%nat.
Proof.
  destruct (OperatorFacts.set_opt_par_partition
    [Operator.mkStrategy 1%Z 2 [(1, 10); (2, 20)]%Z ["discr"; "discr"]%string;
     Operator.mkStrategy 0%Z 3 [(0, 1); (0, 1); (0, 1)]%Z [];
     Operator.mkStrategy 2%Z 3 [(0, 1); (5, 7)]%Z []]
    [11; 12; 13; 14]%Z) as [Hpart Hrun].
  destruct Hrun as [calls Hcalls]; [cbn; lia|].
  exists calls. split; [exact Hcalls|]. exact (Hpart calls Hcalls).
Defined.

(* ================================================================== *)
(** * The cash plan *)

Lemma insert_event_perm e es : Permutation (insert_event e es) (e :: es).
Proof.
  induction es as [|e' es IH]; simpl; [reflexivity|].
  destruct (Z.leb _ _); [reflexivity|].
  rewrite IH. apply perm_swap.
Qed.

Lemma sort_events_perm es : Permutation (fold_right insert_event [] es) es.
Proof.
  induction es as [|e es IH]; simpl; [reflexivity|].
  rewrite insert_event_perm. now constructor.
Qed.

Lemma insert_event_sorted e es :
  StronglySorted Z.le (map fst es) ->
  StronglySorted Z.le (map fst (insert_event e es)).
Proof.
  induction es as [|e' es IH]; simpl; intros H.
  - repeat constructor.
  - destruct (Z.leb _ _) eqn:E; simpl.
    + apply Z.leb_le in E. constructor; [exact H|].
      apply StronglySorted_inv in H as [_ H2].
      constructor; [exact E|].
      rewrite Forall_forall in *. intros x Hx. specialize (H2 x Hx).
      exact (Z.le_trans _ _ _ E H2).
    + apply Z.leb_gt in E. apply StronglySorted_inv in H as [H1 H2].
      constructor; [now apply IH|].
      rewrite Forall_forall in *. intros x Hx.
      apply (Permutation_in _ (Permutation_map fst (insert_event_perm e es)))
        in Hx.
      destruct Hx as [<- | Hx]; [exact (Z.lt_le_incl _ _ E) | now apply H2].
Qed.

Lemma sort_events_sorted es :
  StronglySorted Z.le (map fst (fold_right insert_event [] es)).
Proof.
  induction es as [|e es IH]; simpl; [constructor|].
  now apply insert_event_sorted.
Qed.

Lemma sort_events_sorted_id es :
  StronglySorted Z.le (map fst es) -> fold_right insert_event [] es = es.
Proof.
  induction es as [|e es IH]; simpl; intros H; [reflexivity|].
  apply StronglySorted_inv in H as [H1 H2]. rewrite (IH H1).
  destruct es as [|e' es]; [reflexivity|]. simpl.
  apply Forall_inv in H2.
  destruct (Z.leb _ _) eqn:E; [reflexivity|].
  apply Z.leb_gt in E. exfalso. apply (Z.lt_irrefl (fst e)).
  eapply Z.le_lt_trans; [exact H2 | exact E].
Qed.

Lemma combine_fst {A B : Type} (l : list A) (l' : list B) :
  List.length l = List.length l' -> map fst (combine l l') = l.
Proof.
  revert l'; induction l as [|x l IH]; intros [|y l'] H; simpl in *;
    try discriminate; [reflexivity|].
  f_equal. apply IH. lia.
Qed.

Lemma combine_snd {A B : Type} (l : list A) (l' : list B) :
  List.length l = List.length l' -> map snd (combine l l') = l'.
Proof.
  revert l'; induction l as [|x l IH]; intros [|y l'] H; simpl in *;
    try discriminate; [reflexivity|].
  f_equal. apply IH. lia.
Qed.

(** X12.  The constructor of [CashPlan] accepts a list of dates and a list
    of amounts exactly when every amount is positive and the two lists
    have one length; the plan then holds the given events, each once,
    sorted by date.  Otherwise it fails with an assertion error. *)
Theorem CashPlan_init_outcome (ds : list date) (ams : list fnum) :
  match CashPlan_init ds ams with
  | Ok cp =>
      forallb (fun a => fgt a (Fin 0)) ams = true /\
      List.length ams = List.length ds /\
      StronglySorted Z.le (dates cp) /\
      Permutation (plan cp) (combine ds ams) /\
      Permutation (dates cp) ds /\ Permutation (amounts cp) ams
  | Raise e =>
      (exists msg, e = AssertionError msg) /\
      (forallb (fun a => fgt a (Fin 0)) ams = false \/
       List.length ams <> List.length ds)
  end.
Proof.
  unfold CashPlan_init.
  destruct (forallb (fun a => fgt a (Fin 0)) ams) eqn:Ep; cbn [negb].
  - destruct (Nat.eqb (List.length ams) (List.length ds)) eqn:El; cbn [negb].
    + apply Nat.eqb_eq in El. unfold dates, amounts. cbn [plan].
      split; [reflexivity|]. split; [exact El|].
      split; [apply sort_events_sorted|].
      split; [apply sort_events_perm|]. split.
      * rewrite <- (combine_fst ds ams) at 2 by lia.
        apply Permutation_map, sort_events_perm.
      * rewrite <- (combine_snd ds ams) at 2 by lia.
        apply Permutation_map, sort_events_perm.
    + apply Nat.eqb_neq in El. split; [eauto | now right].
  - split; [eauto | now left].
Qed.

Module CashPlanFacts.
Import CashPlanOps.

Lemma init_Ok b ds ams r p :
  init b ds ams r = Ok p ->
  List.length ams = List.length ds /\
  p = mk (mkCashPlan (fold_right insert_event [] (combine ds ams))) r /\
  fle (Fin 0) r && fle r (Fin 1) = true /\
  (b = true -> forallb (fun a => fgt a (Fin 0)) ams = true).
Proof.
  unfold init.
  destruct (b && negb (forallb (fun a => fgt a (Fin 0)) ams)) eqn:Ep;
    [discriminate|].
  destruct (Nat.eqb (List.length ams) (List.length ds)) eqn:El;
    cbn [negb]; [|discriminate].
  destruct (fle (Fin 0) r && fle r (Fin 1)) eqn:Er; cbn [negb];
    [|discriminate].
  intros [= <-]. apply Nat.eqb_eq in El. repeat split; try assumption.
  intros ->. cbn in Ep. now apply negb_false_iff in Ep.
Qed.

Lemma last_cons_default {A : Type} (l : list A) (x d : A) :
  last (x :: l) d = last l x.
Proof.
  revert x d; induction l as [|y l IH]; intros x d; [reflexivity|].
  change (last (x :: y :: l) d) with (last (y :: l) d).
  rewrite (IH y d). symmetry. apply IH.
Qed.

Lemma last_In {A : Type} (l : list A) (d : A) : In (last l d) (d :: l).
Proof.
  revert d; induction l as [|x l IH]; intros d; [now left|].
  rewrite last_cons_default. right. apply IH.
Qed.

Lemma sorted_last_max (d : Z) (l : list Z) :
  StronglySorted Z.le (d :: l) -> forall x, In x (d :: l) -> (x <= last l d)%Z.
Proof.
  revert d; induction l as [|y l IH]; intros d Hs x Hx.
  - destruct Hx as [<- | []]. simpl. lia.
  - apply StronglySorted_inv in Hs as [Hs Hd].
    rewrite last_cons_default.
    destruct Hx as [<- | Hx].
    + apply Forall_inv in Hd.
      specialize (IH y Hs y (or_introl eq_refl)). lia.
    + exact (IH y Hs x Hx).
Qed.

(** X13.  A plan that the constructor has made from a non-empty list of
    dates has a first and a last day; every date given to the
    constructor lies between them, and [period], the number of days from
    the first to the last, is not negative. *)
Theorem plan_window (b : bool) (ds : list date) (ams : list fnum)
        (r : fnum) (p : t) :
  init b ds ams r = Ok p -> ds <> [] ->
  exists f l,
    first_day p = Some f /\ last_day p = Some l /\
    period p = Some (l - f)%Z /\ (0 <= l - f)%Z /\
    In f ds /\ In l ds /\
    forall d, In d ds -> (f <= d <= l)%Z.
Proof.
  intros Hinit Hne.
  apply init_Ok in Hinit as (Hlen & -> & _ & _).
  unfold first_day, last_day, period, first_day, last_day, dates.
  cbn [frame plan].
  pose proof (sort_events_sorted (combine ds ams)) as Hs.
  assert (Hp : Permutation (map fst (fold_right insert_event []
                                       (combine ds ams))) ds).
  { rewrite <- (combine_fst ds ams) at 2 by lia.
    apply Permutation_map, sort_events_perm. }
  destruct (map fst (fold_right insert_event [] (combine ds ams)))
    as [|f rest] eqn:E.
  - apply Permutation_nil in Hp. congruence.
  - cbn [hd_error]. exists f, (last rest f).
    assert (Hmin : forall x, In x (f :: rest) -> (f <= x)%Z).
    { intros x [<- | Hx]; [lia|].
      apply StronglySorted_inv in Hs as [_ Hf].
      rewrite Forall_forall in Hf. now apply Hf. }
    pose proof (sorted_last_max f rest Hs) as Hmax.
    pose proof (last_In rest f) as Hl.
    repeat split.
    + specialize (Hmin _ Hl). lia.
    + apply (Permutation_in _ Hp). now left.
    + apply (Permutation_in _ Hp). exact Hl.
    + apply Hmin. apply (Permutation_in _ (Permutation_sym Hp)). assumption.
    + apply Hmax. apply (Permutation_in _ (Permutation_sym Hp)). assumption.
Qed.


Lemma plan_window_witness :
  exists p f l,
    init true [20%Z; 3%Z; 11%Z] [Fin 100; Fin 200; Fin 300]
                     (Fin 0) = Ok p /\
    first_day p = Some f /\ last_day p = Some l /\
    (0 <= l - f)%Z.
Proof.
  eexists.
  destruct (plan_window true [20%Z; 3%Z; 11%Z]
              [Fin 100; Fin 200; Fin 300] (Fin 0) _ eq_refl)
    as (f & l & Hf & Hl & _ & Hpos & _); [discriminate|].
  exists f, l. split; [reflexivity|]. repeat split; assumption.
Defined.

(** *** Comparisons and sums of finite numbers *)

Lemma fgt_fin_true (a b : Q) : fgt (Fin a) (Fin b) = true <-> b < a.
Proof.
  unfold fgt. rewrite negb_true_iff. split; intros H.
  - apply Qnot_le_lt. intros Hle. apply Qle_bool_iff in Hle. congruence.
  - destruct (Qle_bool a b) eqn:E; [|reflexivity].
    apply Qle_bool_iff in E. exfalso. exact (Qlt_not_le _ _ H E).
Qed.

Lemma fgt_fin_false (a b : Q) : fgt (Fin a) (Fin b) = false <-> a <= b.
Proof.
  unfold fgt. rewrite negb_false_iff. apply Qle_bool_iff.
Qed.

Lemma pos_fin_forallb (l : list fnum) :
  Forall pos_fin l -> forallb (fun a => fgt a (Fin 0)) l = true.
Proof.
  induction 1 as [|a l (q & -> & Hq) _ IH]; [reflexivity|].
  cbn [forallb]. rewrite IH, andb_true_r. now apply fgt_fin_true.
Qed.

Lemma fsum_fin (l : list fnum) :
  Forall finite l -> exists s, fsum l = Fin s.
Proof.
  induction 1 as [|a l Ha _ (s & IH)]; [now exists 0|].
  destruct a as [q| | |]; try contradiction.
  rewrite fsum_cons, IH. now exists (q + s).
Qed.

Lemma pos_fin_finite (l : list fnum) : Forall pos_fin l -> Forall finite l.
Proof.
  apply Forall_impl. intros a (q & -> & _). exact I.
Qed.

Lemma fsum_perm (l l' : list fnum) :
  Permutation l l' -> Forall finite l -> feq (fsum l) (fsum l').
Proof.
  induction 1 as [|x l l' Hp IH|x y l|l l' l'' Hp1 IH1 Hp2 IH2]; intros Hf.
  - apply feq_refl.
  - apply Forall_cons_iff in Hf as [Hx Hf]. specialize (IH Hf).
    destruct (fsum_fin l Hf) as (s & Es).
    rewrite !fsum_cons. rewrite Es in *.
    destruct (fsum l') as [s'| | |]; try contradiction.
    destruct x as [q| | |]; try contradiction.
    cbn in *. now rewrite IH.
  - apply Forall_cons_iff in Hf as [Hy Hf].
    apply Forall_cons_iff in Hf as [Hx Hf].
    destruct (fsum_fin l Hf) as (s & Es). rewrite !fsum_cons, Es.
    destruct x as [qx| | |]; try contradiction.
    destruct y as [qy| | |]; try contradiction.
    cbn. ring.
  - eapply feq_trans; [now apply IH1|]. apply IH2.
    eapply Permutation_Forall; eassumption.
Qed.

Lemma fsum_app (l l' : list fnum) :
  Forall finite l -> Forall finite l' ->
  feq (fsum (l ++ l')) (fadd (fsum l) (fsum l')).
Proof.
  intros Hl Hl'. destruct (fsum_fin l' Hl') as (s' & Es').
  induction Hl as [|a l Ha Hl IH].
  - cbn [app]. rewrite Es'. cbn. ring.
  - destruct (fsum_fin l Hl) as (s & Es).
    destruct (fsum_fin (l ++ l') (proj2 (Forall_app _ _ _) (conj Hl Hl'))) as (t & Et).
    cbn [app]. rewrite !fsum_cons. rewrite Es, Es', Et in *.
    destruct a as [q| | |]; try contradiction. cbn in *. rewrite IH. ring.
Qed.

Lemma filter_not_nan (l : list fnum) :
  Forall finite l -> filter (fun a => negb (isnan a)) l = l.
Proof.
  induction 1 as [|a l Ha _ IH]; [reflexivity|].
  destruct a; try contradiction. cbn. now rewrite IH.
Qed.

Lemma combine_map_snd {A B C : Type} (f : B -> C) (es : list (A * B)) :
  combine (map fst es) (map f (map snd es)) =
  map (fun e => (fst e, f (snd e))) es.
Proof.
  induction es as [|[a b] es IH]; [reflexivity|]. cbn. now rewrite IH.
Qed.

(** The constructor, called again on the dates of a plan and on its
    amounts after a change [f] of each amount. *)
Lemma init_reframe (b : bool) (p : t) (f : fnum -> fnum) :
  StronglySorted Z.le (dates (frame p)) ->
  fle (Fin 0) (ir p) && fle (ir p) (Fin 1) = true ->
  (b = true ->
   forallb (fun a => fgt a (Fin 0)) (map f (amounts (frame p))) = true) ->
  init b (dates (frame p)) (map f (amounts (frame p))) (ir p) =
  Ok (mk (mkCashPlan (map (fun e => (fst e, f (snd e))) (plan (frame p))))
         (ir p)).
Proof.
  intros Hs Hr Hpos. unfold init.
  assert (E1 : b && negb (forallb (fun a => fgt a (Fin 0))
                            (map f (amounts (frame p)))) = false).
  { destruct b; [|reflexivity]. now rewrite Hpos. }
  rewrite E1. unfold dates, amounts in *. rewrite !length_map, Nat.eqb_refl.
  cbn [negb]. rewrite Hr. cbn [negb].
  rewrite combine_map_snd. rewrite sort_events_sorted_id; [reflexivity|].
  rewrite map_map. cbn [fst]. exact Hs.
Qed.

(** X14.  Multiplying a well-formed plan by a positive number gives a plan
    with the same dates and the same rate, each amount and the total
    multiplied by that number. *)
Theorem mul_scales (p : t) (k : Q) :
  well_formed p -> 0 < k ->
  exists p',
    mul p (Fin k) = Ok p' /\
    dates (frame p') = dates (frame p) /\
    amounts (frame p') = map (fun a => fmul a (Fin k)) (amounts (frame p)) /\
    ir p' = ir p /\ well_formed p' /\
    feq (total p') (fmul (total p) (Fin k)).
Proof.
  intros (Hs & Hpos & Hr) Hk.
  assert (Hpos' : Forall pos_fin
                    (map (fun a => fmul a (Fin k)) (amounts (frame p)))).
  { apply Forall_map. revert Hpos. apply Forall_impl.
    intros a (q & -> & Hq). exists (q * k). split; [reflexivity|].
    now apply Qmult_lt_0_compat. }
  eexists. split.
  - unfold mul.
    assert (E : fle (Fin 0) (Fin k) = true).
    { unfold fle. cbn [isnan negb andb]. apply negb_true_iff.
      apply fgt_fin_false. now apply Qlt_le_weak. }
    rewrite E. cbn [negb].
    apply init_reframe; [exact Hs | exact Hr |].
    intros _. now apply pos_fin_forallb.
  - assert (Ed : dates (mkCashPlan (map (fun e => (fst e, fmul (snd e) (Fin k)))
                                       (plan (frame p)))) = dates (frame p)).
    { unfold dates. cbn [plan]. rewrite map_map. reflexivity. }
    assert (Ea : amounts (mkCashPlan (map (fun e => (fst e, fmul (snd e) (Fin k)))
                                          (plan (frame p)))) =
                 map (fun a => fmul a (Fin k)) (amounts (frame p))).
    { unfold amounts. cbn [plan]. rewrite !map_map. reflexivity. }
    cbn [frame ir]. split; [exact Ed|]. split; [exact Ea|].
    split; [reflexivity|]. split.
    + unfold well_formed. cbn [frame ir]. rewrite Ed, Ea. now repeat split.
    + unfold total. cbn [frame]. rewrite Ea.
      rewrite !filter_not_nan by now apply pos_fin_finite.
      clear -Hpos. induction Hpos as [|a l (q & -> & _) Hl IH].
      * cbn. ring.
      * destruct (fsum_fin l (pos_fin_finite _ Hl)) as (s & Es).
        cbn [map]. rewrite !fsum_cons. rewrite Es in *.
        destruct (fsum (map _ l)) as [s'| | |]; try contradiction.
        cbn in *. rewrite IH. ring.
Qed.

Lemma mul_scales_witness :
  exists p',
    mul (mk (mkCashPlan [(3%Z, Fin 100); (20%Z, Fin 250)]) (Fin 0)) (Fin 2)
    = Ok p' /\
    amounts (frame p') = [fmul (Fin 100) (Fin 2); fmul (Fin 250) (Fin 2)].
Proof.
  destruct (mul_scales (mk (mkCashPlan [(3%Z, Fin 100); (20%Z, Fin 250)])
                           (Fin 0)) 2)
    as (p' & H1 & _ & H2 & _).
  - split; [|split].
    + repeat constructor; cbn; lia.
    + repeat (apply Forall_cons || apply Forall_nil);
        eexists; (split; [reflexivity | reflexivity]).
    + reflexivity.
  - reflexivity.
  - exists p'. split; [exact H1 | exact H2].
Defined.

(** X15.  [__mul__] asserts [other >= 0], but a non-empty plan cannot be
    multiplied by zero either: the constructor then refuses the amounts,
    none of which is positive.  So every number that is not positive ends
    in an assertion error. *)
Theorem mul_nonpositive_rejected (p : t) (k : Q) :
  k <= 0 -> plan (frame p) <> [] ->
  exists msg, mul p (Fin k) = Raise (AssertionError msg).
Proof.
  intros Hk Hne. unfold mul.
  destruct (fle (Fin 0) (Fin k)) eqn:E; cbn [negb]; [|eauto].
  assert (Hk0 : k == 0).
  { unfold fle in E. cbn [isnan negb andb] in E.
    apply negb_true_iff, fgt_fin_false in E. now apply Qle_antisym. }
  unfold init, amounts.
  destruct (plan (frame p)) as [|[d a] es]; [congruence|].
  cbn [map snd forallb].
  assert (Ea : fgt (fmul a (Fin k)) (Fin 0) = false).
  { destruct a as [q| | |]; cbn [fmul].
    - apply fgt_fin_false. rewrite Hk0. ring_simplify. apply Qle_refl.
    - apply Qsgn_zero in Hk0. rewrite Hk0. reflexivity.
    - apply Qsgn_zero in Hk0. rewrite Hk0. reflexivity.
    - reflexivity. }
  rewrite Ea. cbn [andb negb]. eauto.
Qed.

Lemma mul_nonpositive_rejected_witness :
  exists msg,
    mul (mk (mkCashPlan [(3%Z, Fin 100)]) (Fin 0)) (Fin 0)
    = Raise (AssertionError msg).
Proof.
  apply mul_nonpositive_rejected; [apply Qle_refl | discriminate].
Defined.

Lemma np_min_fin (l : list fnum) (q : Q) :
  Forall finite l ->
  exists m, np_min (Fin q) l = Fin m /\
            In (Fin m) (Fin q :: l) /\
            forall x, In (Fin x) (Fin q :: l) -> m <= x.
Proof.
  intros Hl. revert q. induction Hl as [|a l Ha _ IH]; intros q.
  - exists q. split; [reflexivity|]. split; [now left|].
    intros x [[= ->] | []]. apply Qle_refl.
  - destruct a as [b| | |]; try contradiction.
    unfold np_min. cbn [fold_left fmin].
    destruct (fgt (Fin q) (Fin b)) eqn:E.
    + apply fgt_fin_true in E.
      destruct (IH b) as (m & Em & Hin & Hle). exists m.
      split; [exact Em|]. split; [now right|].
      intros x [[= <-] | Hx]; [|now apply Hle].
      apply Qle_trans with b; [apply Hle; now left | now apply Qlt_le_weak].
    + apply fgt_fin_false in E.
      destruct (IH q) as (m & Em & Hin & Hle). exists m.
      split; [exact Em|]. split.
      * destruct Hin as [Hin | Hin]; [now left | right; now right].
      * intros x [[= <-] | [[= <-] | Hx]].
        -- apply Hle; now left.
        -- apply Qle_trans with q; [apply Hle; now left | exact E].
        -- apply Hle; now right.
Qed.

(** X16.  Adding a number to a well-formed, non-empty plan succeeds exactly
    when every amount stays positive (the test on the smallest amount
    decides for all of them); the new plan then has the same dates and
    rate, each amount increased by the number.  Otherwise the call ends
    in an assertion error. *)
Theorem add_number_outcome (p : t) (x : Q) :
  well_formed p -> plan (frame p) <> [] ->
  if forallb (fun a => fgt (fadd a (Fin x)) (Fin 0)) (amounts (frame p))
  then add_number p (Fin x) =
       Ok (mk (mkCashPlan (map (fun e => (fst e, fadd (snd e) (Fin x)))
                               (plan (frame p)))) (ir p))
  else exists msg, add_number p (Fin x) = Raise (AssertionError msg).
Proof.
  intros (Hs & Hpos & Hr) Hne. unfold add_number.
  destruct (amounts (frame p)) as [|a rest] eqn:Ea.
  { unfold amounts in Ea. apply map_eq_nil in Ea. contradiction. }
  pose proof (pos_fin_finite _ Hpos) as Hfin.
  apply Forall_cons_iff in Hfin as [Ha Hrest].
  destruct a as [q| | |]; try contradiction.
  destruct (np_min_fin rest q Hrest) as (m & Em & Hin & Hle).
  rewrite Em. cbn [fneg].
  destruct (fgt (Fin x) (Fin (- m))) eqn:E; cbn [negb].
  - apply fgt_fin_true in E.
    assert (Hall : forallb (fun a => fgt (fadd a (Fin x)) (Fin 0))
                     (Fin q :: rest) = true).
    { apply forallb_forall. intros y Hy.
      rewrite Forall_forall in Hpos. destruct (Hpos y Hy) as (qy & -> & _).
      cbn [fadd]. apply fgt_fin_true. specialize (Hle qy Hy). lra. }
    rewrite Hall. rewrite <- Ea.
    apply (init_reframe false p (fun a => fadd a (Fin x)));
      [exact Hs | exact Hr | discriminate].
  - apply fgt_fin_false in E.
    assert (Hall : forallb (fun a => fgt (fadd a (Fin x)) (Fin 0))
                     (Fin q :: rest) = false).
    { destruct (forallb _ _) eqn:F; [|reflexivity].
      rewrite forallb_forall in F. specialize (F _ Hin). cbn [fadd] in F.
      apply fgt_fin_true in F. lra. }
    rewrite Hall. eauto.
Qed.

Lemma add_number_outcome_witness :
  add_number (mk (mkCashPlan [(3%Z, Fin 100); (20%Z, Fin 250)]) (Fin 0))
             (Fin (-50))
  = Ok (mk (mkCashPlan [(3%Z, fadd (Fin 100) (Fin (-50)));
                        (20%Z, fadd (Fin 250) (Fin (-50)))]) (Fin 0)).
Proof.
  refine (add_number_outcome
            (mk (mkCashPlan [(3%Z, Fin 100); (20%Z, Fin 250)]) (Fin 0))
            (-50) _ _).
  - split; [|split].
    + repeat constructor; cbn; lia.
    + repeat (apply Forall_cons || apply Forall_nil);
        eexists; (split; [reflexivity | reflexivity]).
    + reflexivity.
  - discriminate.
Defined.

Lemma init_list_Ok (ds : list date) (ams : list fnum) (r : fnum) :
  Forall pos_fin ams -> List.length ams = List.length ds ->
  fle (Fin 0) r && fle r (Fin 1) = true ->
  init true ds ams r =
  Ok (mk (mkCashPlan (fold_right insert_event [] (combine ds ams))) r).
Proof.
  intros Hpos Hlen Hr. unfold init.
  rewrite (pos_fin_forallb _ Hpos). cbn [andb negb].
  rewrite Hlen, Nat.eqb_refl. cbn [negb]. rewrite Hr. reflexivity.
Qed.

Lemma repeat_times_pos_fin (l : list fnum) (k : nat) :
  Forall pos_fin l -> Forall pos_fin (List.concat (repeat l k)).
Proof.
  intros Hl. induction k as [|k IH]; [constructor|].
  cbn [repeat List.concat]. apply Forall_app. now split.
Qed.

Lemma repeat_times_length {A : Type} (l : list A) (k : nat) :
  List.length (List.concat (repeat l k)) = (k * List.length l)%nat.
Proof.
  induction k as [|k IH]; [reflexivity|].
  cbn [repeat List.concat]. rewrite length_app, IH. reflexivity.
Qed.

Lemma shifted_copies_length {A B C : Type} (h : A -> B -> C) (l : list B)
      (xs : list A) :
  List.length (List.concat (map (fun i => map (h i) l) xs)) =
  (List.length xs * List.length l)%nat.
Proof.
  induction xs as [|x xs IH]; [reflexivity|].
  cbn [map List.concat]. rewrite length_app, length_map, IH. reflexivity.
Qed.

Lemma repeat_times_sum (l : list fnum) (k : nat) :
  Forall pos_fin l ->
  feq (fsum (List.concat (repeat l k)))
      (fmul (Fin (inject_Z (Z.of_nat k))) (fsum l)).
Proof.
  intros Hl. pose proof (pos_fin_finite _ Hl) as Hf.
  destruct (fsum_fin l Hf) as (s & Es). rewrite Es. cbn [fmul].
  induction k as [|k IH].
  - cbn. ring.
  - cbn [repeat List.concat].
    pose proof (pos_fin_finite _ (repeat_times_pos_fin l k Hl)) as Hk.
    eapply feq_trans; [apply fsum_app; assumption|].
    destruct (fsum_fin _ Hk) as (t & Et). rewrite Es, Et in *.
    cbn [fadd feq] in IH |- *. rewrite IH, Nat2Z.inj_succ. unfold Z.succ.
    rewrite inject_Z_plus. ring.
Qed.

Lemma combine_app_eq {A B : Type} (l1 l2 : list A) (l1' l2' : list B) :
  List.length l1 = List.length l1' ->
  combine (l1 ++ l2) (l1' ++ l2') = combine l1 l1' ++ combine l2 l2'.
Proof.
  revert l1'; induction l1 as [|x l1 IH]; intros [|y l1'] H;
    try discriminate; [reflexivity|].
  cbn. f_equal. apply IH. now injection H.
Qed.

Lemma range_length (n : Z) : List.length (range n) = Z.to_nat n.
Proof. unfold range. now rewrite length_map, length_seq. Qed.

(** X17.  An integer [n > 1] times a well-formed, non-empty plan gives a
    plan that keeps every investment of the original, holds [n] times as
    many investments, namely the amounts of the original [n] times over,
    so that the total is [n] times the original total, under the same
    rate and with the dates in increasing order. *)
Theorem rmul_int_repeats (p : t) (n : Z) :
  well_formed p -> (1 < n)%Z -> plan (frame p) <> [] ->
  exists p',
    rmul_int n p = Ok p' /\
    investment_count p' = (Z.to_nat n * investment_count p)%nat /\
    Permutation (amounts (frame p')) (list_times (amounts (frame p)) n) /\
    feq (total p') (fmul (Fin (inject_Z n)) (total p)) /\
    ir p' = ir p /\
    StronglySorted Z.le (dates (frame p')) /\
    (forall e, In e (plan (frame p)) -> In e (plan (frame p'))).
Proof.
  intros (Hs & Hpos & Hr) Hn Hne.
  assert (Hcount : investment_count p = List.length (amounts (frame p))).
  { unfold investment_count, dates, amounts. now rewrite !length_map. }
  assert (Hgen : forall ds,
             List.length ds = (Z.to_nat n * investment_count p)%nat ->
             (forall e, In e (plan (frame p)) ->
                        In e (combine ds (list_times (amounts (frame p)) n))) ->
             exists p',
               init true ds (list_times (amounts (frame p)) n) (ir p) = Ok p' /\
               investment_count p' = (Z.to_nat n * investment_count p)%nat /\
               Permutation (amounts (frame p'))
                           (list_times (amounts (frame p)) n) /\
               feq (total p') (fmul (Fin (inject_Z n)) (total p)) /\
               ir p' = ir p /\
               StronglySorted Z.le (dates (frame p')) /\
               (forall e, In e (plan (frame p)) -> In e (plan (frame p')))).
  { intros ds Hlen Hin.
    assert (Hl : List.length (list_times (amounts (frame p)) n) =
                 List.length ds).
    { unfold list_times. rewrite repeat_times_length, Hlen, Hcount.
      reflexivity. }
    pose proof (repeat_times_pos_fin _ (Z.to_nat n) Hpos) as Hpos'.
    eexists. split; [apply init_list_Ok; assumption|].
    assert (Hperm : Permutation
                      (amounts (mkCashPlan
                         (fold_right insert_event []
                            (combine ds (list_times (amounts (frame p)) n)))))
                      (list_times (amounts (frame p)) n)).
    { unfold amounts at 1. cbn [plan].
      rewrite <- (combine_snd ds (list_times (amounts (frame p)) n)) at 2
        by (symmetry; exact Hl).
      apply Permutation_map, sort_events_perm. }
    cbn [frame ir]. split; [|split; [exact Hperm|split; [|split; [reflexivity|split]]]].
    - unfold investment_count, dates. cbn [frame plan].
      rewrite length_map, (Permutation_length (sort_events_perm _)).
      rewrite length_combine, <- Hl, Nat.min_id. rewrite Hl. exact Hlen.
    - unfold total. cbn [frame].
      pose proof (Permutation_Forall (Permutation_sym Hperm) Hpos') as Hp2.
      rewrite !filter_not_nan by now apply pos_fin_finite.
      eapply feq_trans; [apply fsum_perm;
                         [exact Hperm | now apply pos_fin_finite]|].
      unfold list_times.
      eapply feq_trans; [now apply repeat_times_sum|].
      rewrite Z2Nat.id by lia. apply feq_refl.
    - unfold dates. cbn [plan]. apply sort_events_sorted.
    - intros e He. cbn [plan].
      apply (Permutation_in _ (Permutation_sym (sort_events_perm _))).
      now apply Hin. }
  assert (Hrep : list_times (amounts (frame p)) n =
                 amounts (frame p) ++
                 List.concat (repeat (amounts (frame p)) (Z.to_nat (n - 1)))).
  { unfold list_times. replace (Z.to_nat n) with (S (Z.to_nat (n - 1))) by lia.
    reflexivity. }
  unfold rmul_int.
  assert (En : (1 <? n)%Z = true) by now apply Z.ltb_lt.
  rewrite En. cbn [negb].
  destruct (Nat.eqb (investment_count p) 1) eqn:E1.
  - apply Nat.eqb_eq in E1.
    unfold first_day. unfold investment_count in E1.
    destruct (dates (frame p)) as [|fd [|? ?]] eqn:Ed; try discriminate.
    cbn [hd_error]. apply Hgen.
    + rewrite length_map, range_length. unfold investment_count. rewrite Ed.
      cbn. lia.
    + intros e He. rewrite Hrep.
      unfold dates, amounts in *.
      destruct (plan (frame p)) as [|[d a] [|? ?]]; try discriminate.
      cbn in Ed. injection Ed as ->. destruct He as [<- | []].
      unfold range. replace (Z.to_nat n) with (S (Z.to_nat (n - 1))) by lia.
      cbn [seq map app combine snd]. left. f_equal. cbn. lia.
  - unfold period, last_day, first_day.
    destruct (dates (frame p)) as [|f rest] eqn:Ed.
    { unfold dates in Ed. apply map_eq_nil in Ed. contradiction. }
    cbn [hd_error]. rewrite <- Ed. apply Hgen.
    + rewrite length_app, shifted_copies_length, range_length.
      unfold investment_count.
      replace (Z.to_nat n) with (S (Z.to_nat (n - 1))) by lia.
      reflexivity.
    + intros e He. rewrite Hrep.
      assert (Hc : combine (dates (frame p)) (amounts (frame p)) =
                   plan (frame p)).
      { unfold dates, amounts. clear. induction (plan (frame p)) as [|[d a] es IH];
          [reflexivity|]. cbn. now rewrite IH. }
      rewrite combine_app_eq by (unfold dates, amounts; now rewrite !length_map).
      apply in_or_app. left. now rewrite Hc.
Qed.

Lemma rmul_int_repeats_witness :
  exists p',
    rmul_int 3 (mk (mkCashPlan [(3%Z, Fin 100); (20%Z, Fin 250)]) (Fin 0))
    = Ok p' /\
    investment_count p' = 6%nat.
Proof.
  destruct (rmul_int_repeats
              (mk (mkCashPlan [(3%Z, Fin 100); (20%Z, Fin 250)]) (Fin 0)) 3)
    as (p' & H1 & H2 & _).
  - split; [|split].
    + repeat constructor; cbn; lia.
    + repeat (apply Forall_cons || apply Forall_nil);
        eexists; (split; [reflexivity | reflexivity]).
    + reflexivity.
  - lia.
  - discriminate.
  - exists p'. split; [exact H1 | exact H2].
Defined.

Lemma sorted_map_mono (g : Z -> Z) (l : list Z) :
  (forall x y, (x <= y)%Z -> (g x <= g y)%Z) ->
  StronglySorted Z.le l -> StronglySorted Z.le (map g l).
Proof.
  intros Hg. induction 1 as [|x l Hl IH Hx]; [constructor|].
  cbn [map]. constructor; [exact IH|].
  apply Forall_map. revert Hx. apply Forall_impl. intros y. apply Hg.
Qed.

Lemma sorted_app_intro (l1 l2 : list Z) :
  StronglySorted Z.le l1 -> StronglySorted Z.le l2 ->
  (forall x y, In x l1 -> In y l2 -> (x <= y)%Z) ->
  StronglySorted Z.le (l1 ++ l2).
Proof.
  intros H1 H2 H. induction H1 as [|x l1 Hl IH Hx]; [exact H2|].
  cbn [app]. constructor.
  - apply IH. intros a b Ha Hb. apply H; [now right | exact Hb].
  - apply Forall_app. split; [exact Hx|].
    apply Forall_forall. intros y Hy. apply H; [now left | exact Hy].
Qed.

Lemma seq_sorted (a k : nat) :
  StronglySorted Z.le (map Z.of_nat (seq a k)).
Proof.
  revert a; induction k as [|k IH]; intros a; [constructor|].
  cbn [seq map]. constructor; [apply IH|].
  apply Forall_map, Forall_forall. intros y Hy. apply in_seq in Hy. lia.
Qed.

Lemma time_offset_covers (prd : Z) : (prd <= time_offset prd)%Z.
Proof.
  unfold time_offset.
  destruct (Z.leb_spec prd 28); [lia|].
  destruct (Z.leb_spec prd 90); [lia|].
  destruct (Z.leb_spec prd 365); [lia|].
  pose proof (Z.div_mod prd 365 ltac:(lia)).
  pose proof (Z.mod_pos_bound prd 365 ltac:(lia)). lia.
Qed.

(** The copies of a sorted list of dates that lies between [f] and [l],
    the copy of index [i] moved forward by [off * (i + 1) + 1] days, come
    one after the other when [off] is at least [l - f]. *)
Lemma shifted_copies_sorted (D : list Z) (f l off : Z) (a k : nat) :
  StronglySorted Z.le D ->
  (forall d, In d D -> (f <= d <= l)%Z) ->
  (l - f <= off)%Z -> (0 <= off)%Z ->
  let copies :=
    List.concat (map (fun i => map (fun d => (d + off * (i + 1) + 1)%Z) D)
                     (map Z.of_nat (seq a k))) in
  StronglySorted Z.le copies /\
  forall y, In y copies -> (f + off * (Z.of_nat a + 1) + 1 <= y)%Z.
Proof.
  intros Hs Hb Hoff Hoff0. revert a. induction k as [|k IH]; intros a.
  - cbn. split; [constructor | intros y []].
  - cbn [seq map List.concat]. destruct (IH (S a)) as [IH1 IH2]. split.
    + apply sorted_app_intro; [|exact IH1|].
      * apply sorted_map_mono; [intros; lia | exact Hs].
      * intros x y Hx Hy. apply in_map_iff in Hx as (d & <- & Hd).
        specialize (IH2 y Hy). specialize (Hb d Hd). nia.
    + intros y Hy. apply in_app_or in Hy as [Hy | Hy].
      * apply in_map_iff in Hy as (d & <- & Hd). specialize (Hb d Hd). lia.
      * specialize (IH2 y Hy). nia.
Qed.

(** X18.  For a well-formed plan of two investments or more, an integer
    [n > 1] times the plan has the dates of the plan followed by [n - 1]
    copies of them, the copy of index [i] moved forward by
    [off * (i + 1) + 1] days, where the spacing [off] is not less than
    the period of the plan.  The copies are therefore in increasing
    order as they stand, and every added date is later than the last
    day of the plan. *)
Theorem rmul_int_dates (p : t) (n : Z) :
  well_formed p -> (1 < n)%Z -> (2 <= investment_count p)%nat ->
  exists p' prd lst off,
    rmul_int n p = Ok p' /\
    period p = Some prd /\ last_day p = Some lst /\
    off = (if Nat.eqb (investment_count p) 2 then prd * 2
           else time_offset prd)%Z /\
    (prd <= off)%Z /\
    dates (frame p') =
      dates (frame p) ++
      List.concat
        (map (fun i => map (fun d => (d + off * (i + 1) + 1)%Z)
                           (dates (frame p)))
             (range (n - 1))) /\
    forall i d, (0 <= i)%Z -> In d (dates (frame p)) ->
                (lst < d + off * (i + 1) + 1)%Z.
Proof.
  intros (Hs & Hpos & Hr) Hn Hc.
  assert (Hlen : List.length (amounts (frame p)) = investment_count p).
  { unfold investment_count, dates, amounts. now rewrite !length_map. }
  unfold rmul_int.
  assert (En : (1 <? n)%Z = true) by now apply Z.ltb_lt.
  rewrite En. cbn [negb].
  destruct (Nat.eqb (investment_count p) 1) eqn:E1;
    [apply Nat.eqb_eq in E1; lia|].
  unfold period, last_day, first_day.
  destruct (dates (frame p)) as [|f rest] eqn:Ed.
  { unfold investment_count in Hc. rewrite Ed in Hc. cbn in Hc. lia. }
  cbn [hd_error]. rewrite <- Ed. pose proof Hs as Hs0. rewrite <- Ed in Hs.
  set (prd := (last rest f - f)%Z).
  set (off := (if Nat.eqb (investment_count p) 2 then prd * 2
               else time_offset prd)%Z).
  assert (Hmin : forall d, In d (dates (frame p)) -> (f <= d <= last rest f)%Z).
  { rewrite Ed. intros d Hd. split.
    - destruct Hd as [<- | Hd]; [lia|].
      apply StronglySorted_inv in Hs0 as [_ Hf].
      rewrite Forall_forall in Hf. now apply Hf.
    - apply sorted_last_max; [exact Hs0 | exact Hd]. }
  assert (Hprd : (0 <= prd)%Z).
  { specialize (Hmin f). rewrite Ed in Hmin.
    specialize (Hmin (or_introl eq_refl)). unfold prd. lia. }
  assert (Hoff : (prd <= off)%Z).
  { unfold off. destruct (Nat.eqb _ 2); [lia | apply time_offset_covers]. }
  set (new_dates :=
         dates (frame p) ++
         List.concat
           (map (fun i => map (fun d => (d + off * (i + 1) + 1)%Z)
                              (dates (frame p)))
                (range (n - 1)))).
  assert (Hnew : StronglySorted Z.le new_dates).
  { unfold new_dates, range.
    destruct (shifted_copies_sorted (dates (frame p)) f (last rest f) off
                0 (Z.to_nat (n - 1)) Hs Hmin ltac:(fold prd; lia) ltac:(lia))
      as [H1 H2].
    apply sorted_app_intro; [exact Hs | exact H1 |].
    intros x y Hx Hy. specialize (H2 y Hy). specialize (Hmin x Hx).
    cbn in H2. unfold prd in *. lia. }
  assert (Hl : List.length (list_times (amounts (frame p)) n) =
               List.length new_dates).
  { unfold list_times, new_dates.
    rewrite repeat_times_length, length_app, shifted_copies_length,
      range_length, Hlen. unfold investment_count.
    replace (Z.to_nat n) with (S (Z.to_nat (n - 1))) by lia. reflexivity. }
  exists (mk (mkCashPlan (fold_right insert_event []
                            (combine new_dates
                                     (list_times (amounts (frame p)) n))))
             (ir p)), prd, (last rest f), off.
  split.
  { apply init_list_Ok; [|exact Hl|exact Hr].
    now apply repeat_times_pos_fin. }
  split; [reflexivity|]. split; [reflexivity|]. split; [reflexivity|].
  split; [exact Hoff|]. split.
  - cbn [frame]. unfold dates at 1. cbn [plan].
    rewrite sort_events_sorted_id;
      rewrite combine_fst by (symmetry; exact Hl);
      [reflexivity | exact Hnew].
  - intros i d Hi Hd. specialize (Hmin d Hd). unfold prd in *. nia.
Qed.

Lemma rmul_int_dates_witness :
  exists p',
    rmul_int 3 (mk (mkCashPlan [(3%Z, Fin 100); (20%Z, Fin 250)]) (Fin 0))
    = Ok p' /\
    dates (frame p') = [3; 20; 38; 55; 72; 89]%Z.
Proof.
  destruct (rmul_int_dates
              (mk (mkCashPlan [(3%Z, Fin 100); (20%Z, Fin 250)]) (Fin 0)) 3)
    as (p' & prd & lst & off & H1 & H2 & _ & H3 & _ & H4 & _).
  - split; [|split].
    + repeat constructor; cbn; lia.
    + repeat (apply Forall_cons || apply Forall_nil);
        eexists; (split; [reflexivity | reflexivity]).
    + reflexivity.
  - lia.
  - cbn. lia.
  - exists p'. split; [exact H1|].
    injection H2 as <-. subst off. exact H4.
Defined.

(** X19.  An integer [n > 1] times a plan of one investment repeats that
    investment [n] times, 365 days apart, the first on the day of the
    original. *)
Theorem rmul_int_single_yearly (fd : date) (a r : fnum) (n : Z) :
  pos_fin a -> fle (Fin 0) r && fle r (Fin 1) = true -> (1 < n)%Z ->
  rmul_int n (mk (mkCashPlan [(fd, a)]) r) =
  Ok (mk (mkCashPlan (map (fun i => ((fd + 365 * i)%Z, a)) (range n))) r).
Proof.
  intros Ha Hr Hn. unfold rmul_int.
  assert (En : (1 <? n)%Z = true) by now apply Z.ltb_lt.
  rewrite En. cbn [negb investment_count frame dates plan map List.length fst
                   Nat.eqb first_day hd_error amounts snd ir].
  assert (Hc : forall xs,
             combine (map (fun i => (fd + 365 * i)%Z) xs)
                     (List.concat (repeat [a] (List.length xs))) =
             map (fun i => ((fd + 365 * i)%Z, a)) xs).
  { induction xs as [|x xs IH]; [reflexivity|].
    cbn [map List.length repeat List.concat app combine]. now rewrite IH. }
  unfold list_times. rewrite <- (range_length n).
  rewrite init_list_Ok.
  - rewrite Hc. rewrite sort_events_sorted_id; [reflexivity|].
    rewrite map_map. cbn [fst].
    apply sorted_map_mono; [intros; lia | apply seq_sorted].
  - apply repeat_times_pos_fin. now constructor.
  - rewrite repeat_times_length, length_map. cbn. lia.
  - exact Hr.
Qed.

Lemma rmul_int_single_yearly_witness :
  rmul_int 3 (mk (mkCashPlan [(10%Z, Fin 100)]) (Fin 0)) =
  Ok (mk (mkCashPlan [(10%Z, Fin 100); (375%Z, Fin 100); (740%Z, Fin 100)])
         (Fin 0)).
Proof.
  refine (rmul_int_single_yearly 10%Z (Fin 100) (Fin 0) 3%Z _ _ _).
  - eexists. split; reflexivity.
  - reflexivity.
  - lia.
Defined.

(** *** The sum of two plans *)

Lemma is_unique_NoDup (l : list date) : NoDup l -> is_unique l = true.
Proof.
  induction 1 as [|d l Hd _ IH]; [reflexivity|].
  cbn [is_unique]. rewrite IH, andb_true_r. apply negb_true_iff.
  destruct (existsb (Z.eqb d) l) eqn:E; [|reflexivity].
  apply existsb_exists in E as (x & Hx & E). apply Z.eqb_eq in E.
  subst x. contradiction.
Qed.

Lemma amount_or_zero_out (es : list (date * fnum)) (d : date) :
  ~ In d (map fst es) -> amount_or_zero es d = Fin 0.
Proof.
  intros H. unfold amount_or_zero.
  match goal with |- context [find ?f es] =>
    destruct (find f es) as [e|] eqn:E end; [|reflexivity].
  apply find_some in E as [Hin E]. apply Z.eqb_eq in E.
  exfalso. apply H. rewrite <- E. now apply in_map.
Qed.

Lemma amount_or_zero_in (es : list (date * fnum)) (d : date) :
  Forall pos_fin (map snd es) -> In d (map fst es) ->
  pos_fin (amount_or_zero es d).
Proof.
  intros Hpos H. unfold amount_or_zero.
  match goal with |- context [find ?f es] =>
    destruct (find f es) as [e|] eqn:E end.
  - apply find_some in E as [Hin _].
    rewrite Forall_forall in Hpos.
    destruct (Hpos (snd e) (in_map snd _ _ Hin)) as (q & Eq & Hq).
    rewrite Eq. cbn [isnan]. now exists q.
  - exfalso. apply in_map_iff in H as (e & E1 & Hin).
    apply (find_none _ _ E) in Hin. cbv beta in Hin.
    apply Z.eqb_neq in Hin. contradiction.
Qed.

Lemma amount_or_zero_head (d : date) (a : fnum) (es : list (date * fnum))
      (x : date) :
  pos_fin a ->
  amount_or_zero ((d, a) :: es) x =
  if Z.eqb d x then a else amount_or_zero es x.
Proof.
  intros (q & -> & _). unfold amount_or_zero. cbn [find fst snd].
  destruct (Z.eqb d x); reflexivity.
Qed.

Lemma vadd_map (f g : date -> fnum) (idx : list date) :
  vadd (map f idx) (map g idx) = map (fun d => fadd (f d) (g d)) idx.
Proof.
  unfold vadd. induction idx as [|d idx IH]; [reflexivity|].
  cbn [map zipWith]. now rewrite IH.
Qed.

Lemma combine_fst_snd {A B : Type} (es : list (A * B)) :
  combine (map fst es) (map snd es) = es.
Proof.
  induction es as [|[a b] es IH]; [reflexivity|]. cbn. now rewrite IH.
Qed.

Lemma fsum_map_add (f g : date -> fnum) (idx : list date) :
  Forall (fun d => finite (f d)) idx -> Forall (fun d => finite (g d)) idx ->
  feq (fsum (map (fun d => fadd (f d) (g d)) idx))
      (fadd (fsum (map f idx)) (fsum (map g idx))).
Proof.
  intros Hf Hg. induction idx as [|d idx IH]; [cbn; ring|].
  apply Forall_cons_iff in Hf as [Hfd Hf].
  apply Forall_cons_iff in Hg as [Hgd Hg].
  specialize (IH Hf Hg).
  destruct (fsum_fin (map f idx)) as (sf & Esf);
    [now apply Forall_map|].
  destruct (fsum_fin (map g idx)) as (sg & Esg);
    [now apply Forall_map|].
  cbn [map]. rewrite !fsum_cons. rewrite Esf, Esg in *.
  destruct (fsum (map _ idx)) as [s| | |]; try contradiction.
  destruct (f d) as [qf| | |]; try contradiction.
  destruct (g d) as [qg| | |]; try contradiction.
  cbn in *. rewrite IH. ring.
Qed.

(** Summing the reindexed amounts of a plan over an index that has every
    date of the plan once gives the total of the plan. *)
Lemma fsum_reindex (es : list (date * fnum)) (idx : list date) :
  Forall pos_fin (map snd es) -> NoDup (map fst es) -> NoDup idx ->
  incl (map fst es) idx ->
  feq (fsum (map (amount_or_zero es) idx)) (fsum (map snd es)).
Proof.
  revert idx. induction es as [|[d a] es IH]; intros idx Hpos Hn Hi Hincl.
  - cbn [map]. clear. induction idx as [|x idx IH]; [apply feq_refl|].
    cbn [map]. rewrite fsum_cons. unfold amount_or_zero at 1. cbn [find].
    destruct (fsum (map _ idx)) as [s| | |]; try contradiction.
    cbn in *. rewrite IH. ring.
  - cbn [map fst snd] in *.
    apply Forall_cons_iff in Hpos as [Ha Hpos].
    apply NoDup_cons_iff in Hn as [Hd Hn].
    assert (Hin : In d idx) by (apply Hincl; now left).
    apply in_split in Hin as (l1 & l2 & ->).
    pose proof (NoDup_remove_1 _ _ _ Hi) as Hi'.
    pose proof (NoDup_remove_2 _ _ _ Hi) as Hd'.
    assert (Hincl' : incl (map fst es) (l1 ++ l2)).
    { intros x Hx. specialize (Hincl x (or_intror Hx)).
      apply in_app_or in Hincl as [H | [<- | H]];
        [apply in_or_app; now left | contradiction |
         apply in_or_app; now right]. }
    specialize (IH (l1 ++ l2) Hpos Hn Hi' Hincl').
    assert (Hext : forall l, ~ In d l ->
               map (amount_or_zero ((d, a) :: es)) l
               = map (amount_or_zero es) l).
    { intros l Hl. apply map_ext_in. intros x Hx.
      rewrite (amount_or_zero_head d a es x Ha).
      destruct (Z.eqb_spec d x); [subst; contradiction | reflexivity]. }
    assert (Hfin : forall l, Forall finite (map (amount_or_zero es) l)).
    { intros l. apply Forall_map, Forall_forall. intros x _.
      destruct (in_dec Z.eq_dec x (map fst es)) as [Hx | Hx].
      - destruct (amount_or_zero_in es x Hpos Hx) as (q & -> & _). exact I.
      - rewrite (amount_or_zero_out es x Hx). exact I. }
    rewrite map_app in *. cbn [map].
    rewrite (Hext l1) by (intros H; apply Hd'; apply in_or_app; now left).
    rewrite (Hext l2) by (intros H; apply Hd'; apply in_or_app; now right).
    rewrite (amount_or_zero_head d a es d Ha), Z.eqb_refl.
    destruct Ha as (q & -> & _).
    pose proof (fsum_app (map (amount_or_zero es) l1)
                  (Fin q :: map (amount_or_zero es) l2) (Hfin l1)
                  (Forall_cons (P := finite) (Fin q) I (Hfin l2))) as E1.
    pose proof (fsum_app (map (amount_or_zero es) l1)
                  (map (amount_or_zero es) l2) (Hfin l1) (Hfin l2)) as E2.
    destruct (fsum_fin _ (Hfin l1)) as (s1 & Es1).
    destruct (fsum_fin _ (Hfin l2)) as (s2 & Es2).
    destruct (fsum_fin (map snd es) (pos_fin_finite _ Hpos)) as (s & Es).
    rewrite !fsum_cons in *. rewrite Es1, Es2, Es in *.
    destruct (fsum (map (amount_or_zero es) l1 ++ Fin q :: _))
      as [t1| | |]; try contradiction.
    destruct (fsum (map (amount_or_zero es) l1 ++ map _ l2))
      as [t2| | |]; try contradiction.
    cbn in *. rewrite E1, <- IH, E2. ring.
Qed.

(** X22.  The sum of two well-formed plans, each with its investments on
    different days, is a well-formed plan on the days of either plan,
    each day once and in increasing order; on each day it invests what
    the two plans invest on that day together, so that its total is the
    sum of the two totals.  Its rate is that of the left plan, unless
    that rate is zero: then it is that of the right plan. *)
Theorem add_plan_outcome (p other : t) :
  well_formed p -> well_formed other ->
  NoDup (dates (frame p)) -> NoDup (dates (frame other)) ->
  exists p',
    add_plan p other = Ok p' /\
    well_formed p' /\ NoDup (dates (frame p')) /\
    (forall d, In d (dates (frame p')) <->
               In d (dates (frame p)) \/ In d (dates (frame other))) /\
    (forall d, In d (dates (frame p')) ->
               invested_on (frame p') d =
               Some (fadd (amount_or_zero (plan (frame p)) d)
                          (amount_or_zero (plan (frame other)) d))) /\
    ir p' = (if is_zero (ir p) then ir other else ir p) /\
    feq (total p') (fadd (total p) (total other)).
Proof.
  intros (Hs1 & Hpos1 & Hr1) (Hs2 & Hpos2 & Hr2) Hn1 Hn2.
  unfold add_plan.
  rewrite (is_unique_NoDup _ Hn1), (is_unique_NoDup _ Hn2). cbn [negb].
  set (idx := nodup Z.eq_dec (dates (frame p) ++ dates (frame other))).
  set (h := fun d => fadd (amount_or_zero (plan (frame p)) d)
                          (amount_or_zero (plan (frame other)) d)).
  set (new_ir := if is_zero (ir p) then ir other else ir p).
  unfold reindex_fillna0. rewrite vadd_map. fold h.
  set (events := fold_right insert_event [] (combine idx (map h idx))).
  assert (Hidx : forall d, In d idx <->
                           In d (dates (frame p)) \/ In d (dates (frame other))).
  { intros d. unfold idx. rewrite nodup_In. apply in_app_iff. }
  assert (Hnd : NoDup idx) by apply NoDup_nodup.
  assert (Hh : Forall (fun d => pos_fin (h d)) idx).
  { apply Forall_forall. intros d Hd. apply Hidx in Hd. unfold h.
    destruct (in_dec Z.eq_dec d (dates (frame p))) as [H1 | H1];
      destruct (in_dec Z.eq_dec d (dates (frame other))) as [H2 | H2].
    - destruct (amount_or_zero_in _ d Hpos1 H1) as (q1 & -> & Hq1).
      destruct (amount_or_zero_in _ d Hpos2 H2) as (q2 & -> & Hq2).
      exists (q1 + q2). split; [reflexivity | lra].
    - destruct (amount_or_zero_in _ d Hpos1 H1) as (q1 & -> & Hq1).
      rewrite (amount_or_zero_out _ d H2).
      exists (q1 + 0). split; [reflexivity | lra].
    - destruct (amount_or_zero_in _ d Hpos2 H2) as (q2 & -> & Hq2).
      rewrite (amount_or_zero_out _ d H1).
      exists (0 + q2). split; [reflexivity | lra].
    - tauto. }
  assert (Hperm : Permutation events (combine idx (map h idx)))
    by apply sort_events_perm.
  assert (Hsorted : StronglySorted Z.le (map fst events))
    by apply sort_events_sorted.
  assert (Hdates : Permutation (map fst events) idx).
  { eapply Permutation_trans; [apply Permutation_map; exact Hperm|].
    rewrite combine_fst by now rewrite length_map. reflexivity. }
  assert (Hams : Permutation (map snd events) (map h idx)).
  { eapply Permutation_trans; [apply Permutation_map; exact Hperm|].
    rewrite combine_snd by now rewrite length_map. reflexivity. }
  assert (Hpos : Forall pos_fin (map snd events)).
  { apply (Permutation_Forall (Permutation_sym Hams)).
    now apply Forall_map. }
  assert (Hir : fle (Fin 0) new_ir && fle new_ir (Fin 1) = true).
  { unfold new_ir. destruct (is_zero (ir p)); assumption. }
  exists (mk (mkCashPlan events) new_ir). split.
  { rewrite init_list_Ok; [|exact Hpos|now rewrite !length_map|exact Hir].
    rewrite combine_fst_snd, sort_events_sorted_id by exact Hsorted.
    reflexivity. }
  cbn [frame ir]. unfold dates at 1 2 3 4, amounts, total. cbn [frame plan].
  assert (Hnd' : NoDup (map fst events))
    by exact (Permutation_NoDup (Permutation_sym Hdates) Hnd).
  split; [repeat split; assumption|]. split; [exact Hnd'|]. split.
  { intros d. rewrite <- Hidx. split; apply Permutation_in;
      [exact Hdates | exact (Permutation_sym Hdates)]. }
  split.
  { intros d Hd. apply invested_on_Some; [exact Hnd'|]. cbn [plan].
    apply (Permutation_in _ (Permutation_sym Hperm)).
    assert (Hdi : In d idx) by exact (Permutation_in _ Hdates Hd).
    clear -Hdi. induction idx as [|x idx IH]; [contradiction|].
    cbn [map combine]. destruct Hdi as [-> | Hdi]; [now left | right; auto]. }
  split; [reflexivity|].
  rewrite !filter_not_nan by now apply pos_fin_finite.
  eapply feq_trans; [apply fsum_perm;
                     [exact Hams | now apply pos_fin_finite]|].
  eapply feq_trans.
  { apply fsum_map_add; apply Forall_forall; intros d _.
    - destruct (in_dec Z.eq_dec d (dates (frame p))) as [H1 | H1].
      + destruct (amount_or_zero_in _ d Hpos1 H1) as (q & -> & _). exact I.
      + rewrite (amount_or_zero_out _ d H1). exact I.
    - destruct (in_dec Z.eq_dec d (dates (frame other))) as [H2 | H2].
      + destruct (amount_or_zero_in _ d Hpos2 H2) as (q & -> & _). exact I.
      + rewrite (amount_or_zero_out _ d H2). exact I. }
  pose proof (fsum_reindex (plan (frame p)) idx Hpos1 Hn1 Hnd
                ltac:(intros d Hd; apply Hidx; now left)) as E1.
  pose proof (fsum_reindex (plan (frame other)) idx Hpos2 Hn2 Hnd
                ltac:(intros d Hd; apply Hidx; now right)) as E2.
  unfold amounts in *.
  destruct (fsum_fin _ (pos_fin_finite _ Hpos1)) as (b1 & Eb1).
  destruct (fsum_fin _ (pos_fin_finite _ Hpos2)) as (b2 & Eb2).
  rewrite Eb1, Eb2 in *.
  destruct (fsum (map (amount_or_zero (plan (frame p))) idx))
    as [a1| | |]; try contradiction.
  destruct (fsum (map (amount_or_zero (plan (frame other))) idx))
    as [a2| | |]; try contradiction.
  cbn in *. now rewrite E1, E2.
Qed.

Lemma add_plan_outcome_witness :
  exists p',
    add_plan (mk (mkCashPlan [(3%Z, Fin 100); (20%Z, Fin 250)]) (Fin 0))
             (mk (mkCashPlan [(20%Z, Fin 50); (40%Z, Fin 70)]) (Fin (1 # 20)))
    = Ok p' /\
    ir p' = Fin (1 # 20) /\
    invested_on (frame p') 20%Z =
    Some (fadd (Fin 250) (Fin 50)).
Proof.
  destruct (add_plan_outcome
              (mk (mkCashPlan [(3%Z, Fin 100); (20%Z, Fin 250)]) (Fin 0))
              (mk (mkCashPlan [(20%Z, Fin 50); (40%Z, Fin 70)])
                  (Fin (1 # 20))))
    as (p' & H1 & _ & _ & H2 & H3 & H4 & _).
  - split; [|split].
    + repeat constructor; cbn; lia.
    + repeat (apply Forall_cons || apply Forall_nil);
        eexists; (split; [reflexivity | reflexivity]).
    + reflexivity.
  - split; [|split].
    + repeat constructor; cbn; lia.
    + repeat (apply Forall_cons || apply Forall_nil);
        eexists; (split; [reflexivity | reflexivity]).
    + reflexivity.
  - repeat constructor; cbn; intuition lia.
  - repeat constructor; cbn; intuition lia.
  - exists p'. split; [exact H1|]. split; [exact H4|].
    apply (H3 20%Z). apply H2. left. cbn. now right; left.
Defined.

End CashPlanFacts.

(* ================================================================== *)
(** * Selling at rates, and the plan as a dictionary *)

Lemma sell_rate_totals (sr sl : Q) (prices a_to_sell : vec) :
  0 <= sr -> 0 <= sl ->
  Forall2 (fun p a => exists pq aq,
             p = Fin pq /\ a = Fin aq /\ 0 < pq /\ aq <= 0)
          prices a_to_sell ->
  let R := fun tv => fsub (Fin sr) (fmul (Fin sl) tv) in
  let svs := vmul a_to_sell prices in
  exists g f v,
    fsum (vmul (map (fmul (Fin (-1))) svs) (map (fsub (Fin 1)) (map R svs)))
    = Fin g /\
    fsum (vmul svs (map R svs)) = Fin f /\
    fsum svs = Fin v /\
    v <= 0 /\ g == - v + f /\ f <= v * sr.
Proof.
  intros Hsr Hsl Hall R svs. subst svs.
  induction Hall as [|p a prices a_to_sell (pq & aq & -> & -> & Hp & Ha) _
                       (g & f & v & Eg & Ef & Ev & Hv & Hg & Hf)].
  - exists 0, 0, 0. repeat split; try reflexivity; lra.
  - unfold vmul in *. cbn [zipWith map]. rewrite !fsum_cons, Eg, Ef, Ev.
    unfold R at 1 2. cbn [fmul fsub fneg fadd].
    eexists _, _, _. split; [reflexivity|]. split; [reflexivity|].
    split; [reflexivity|].
    assert (Hsv : aq * pq <= 0) by nra.
    set (sv := aq * pq) in *. clearbody sv.
    assert (Hq : 0 <= sl * (sv * sv)).
    { apply Qmult_le_0_compat; [exact Hsl|]. nra. }
    split; [lra|]. split; [rewrite Hg; ring|].
    setoid_replace (sv * (sr + - (sl * sv)) + f)
      with (sv * sr + f - sl * (sv * sv)) by ring.
    lra.
Qed.

(** X20.  Selling at rates (no fixed and no minimum fee) under a
    non-negative rate and slippage, at positive prices: what is planned
    for sale is sold in full, the cash gained and the fee add up to the
    value sold, the fee is at least the selling rate times that value,
    and the cash gained is at most the rest of it. *)
Theorem selling_rate_proceeds (self : Cost) (prices a_to_sell : vec)
        (sr sl : Q) :
  is_zero (sell_fix self) = true -> is_zero (sell_min self) = true ->
  sell_rate self = Fin sr -> slipage self = Fin sl ->
  0 <= sr -> 0 <= sl ->
  Forall2 (fun p a => exists pq aq,
             p = Fin pq /\ a = Fin aq /\ 0 < pq /\ aq <= 0)
          prices a_to_sell ->
  exists g f v,
    get_selling_result self prices a_to_sell (Fin 0)
    = (a_to_sell, Fin g, Fin f) /\
    fsum (vmul a_to_sell prices) = Fin v /\
    v <= 0 /\ g + f == - v /\ - v * sr <= f /\ g <= - v * (1 - sr).
Proof.
  intros Efix Emin Esr Esl Hsr Hsl Hall.
  destruct (sell_rate_totals sr sl prices a_to_sell Hsr Hsl Hall)
    as (g & f & v & Eg & Ef & Ev & Hv & Hg & Hf).
  unfold get_selling_result.
  change (is_zero (Fin 0)) with true. cbv iota. rewrite Efix.
  rewrite calculate_map.
  assert (ER : map (calculate1 self false false) (vmul a_to_sell prices) =
               map (fun tv => fsub (Fin sr) (fmul (Fin sl) tv))
                   (vmul a_to_sell prices)).
  { apply map_ext. intros tv. unfold calculate1.
    now rewrite Emin, Esr, Esl. }
  rewrite ER, Eg, Ef. cbn [fneg].
  exists g, (- f), v. split; [reflexivity|]. split; [exact Ev|].
  split; [exact Hv|]. split; [rewrite Hg; ring|]. split; [lra|].
  rewrite Hg. lra.
Qed.

Lemma selling_rate_proceeds_witness :
  exists g f v,
    get_selling_result
      (mkCost (Fin 0) (Fin 0) (Fin (3 # 1000)) (Fin (1 # 1000)) (Fin 5)
              (Fin 0) (Fin 0))
      [Fin 10; Fin 20] [Fin (-100); Fin 0] (Fin 0)
    = ([Fin (-100); Fin 0], Fin g, Fin f) /\
    g + f == - v /\ g <= - v * (1 - (1 # 1000)).
Proof.
  destruct (selling_rate_proceeds
              (mkCost (Fin 0) (Fin 0) (Fin (3 # 1000)) (Fin (1 # 1000))
                      (Fin 5) (Fin 0) (Fin 0))
              [Fin 10; Fin 20] [Fin (-100); Fin 0] (1 # 1000) 0
              eq_refl eq_refl eq_refl eq_refl)
    as (g & f & v & E & _ & _ & H1 & _ & H2).
  - intro H; discriminate H.
  - intro H; discriminate H.
  - apply Forall2_cons; [|apply Forall2_cons; [|apply Forall2_nil]].
    + exists 10, (-100). split; [reflexivity|]. split; [reflexivity|].
      split; [reflexivity | intro H; discriminate H].
    + exists 20, 0. split; [reflexivity|]. split; [reflexivity|].
      split; [reflexivity | intro H; discriminate H].
  - exists g, f, v. split; [exact E|]. split; [exact H1 | exact H2].
Defined.

Lemma dict_get_absent (kvs : list (nat * fnum)) (k : nat) :
  ~ In k (map fst kvs) -> dict_get kvs k = None.
Proof.
  induction kvs as [|[k' v] kvs IH]; cbn; intros H; [reflexivity|].
  rewrite IH by tauto.
  destruct (Nat.eqb k' k) eqn:E; [|reflexivity].
  apply Nat.eqb_eq in E. tauto.
Qed.

Lemma dict_get_combine_last (keys : list nat) (ams : vec) (i k : nat)
      (a : fnum) :
  nth_error keys i = Some k -> nth_error ams i = Some a ->
  (forall j, (i < j)%nat -> nth_error keys j <> Some k) ->
  dict_get (combine keys ams) k = Some a.
Proof.
  revert ams i. induction keys as [|k' keys IH]; intros [|a' ams] [|i];
    cbn; try discriminate.
  - intros [= ->] [= ->] Hlast.
    rewrite dict_get_absent, Nat.eqb_refl; [reflexivity|].
    intros Hin. apply in_map_iff in Hin as ([k1 v1] & E & Hin).
    cbn in E. subst k1. apply in_combine_l in Hin.
    apply In_nth_error in Hin as [j Hj].
    apply (Hlast (S j)); [lia | exact Hj].
  - intros Hk Ha Hlast.
    rewrite (IH ams i Hk Ha); [reflexivity|].
    intros j Hj. apply (Hlast (S j)). lia.
Qed.

(** X21.  [to_dict(keys)] needs as many keys as the plan has amounts and
    otherwise ends in an assertion error.  In the dictionary that it
    returns, a key stands for the amount at the last position where the
    key occurs, and a key that was not given is not in the dictionary. *)
Theorem to_dict_lookup (cp : CashPlan) (keys : list nat) :
  match to_dict cp keys with
  | Ok kvs =>
      List.length keys = List.length (amounts cp) /\
      (forall i k a,
          nth_error keys i = Some k -> nth_error (amounts cp) i = Some a ->
          (forall j, (i < j)%nat -> nth_error keys j <> Some k) ->
          dict_get kvs k = Some a) /\
      (forall k, ~ In k keys -> dict_get kvs k = None)
  | Raise e =>
      List.length keys <> List.length (amounts cp) /\
      exists msg, e = AssertionError msg
  end.
Proof.
  unfold to_dict.
  destruct (Nat.eqb (List.length keys) (List.length (amounts cp))) eqn:E.
  - apply Nat.eqb_eq in E. split; [exact E|]. split.
    + intros i k a. apply dict_get_combine_last.
    + intros k Hk. apply dict_get_absent. intros Hin. apply Hk.
      apply in_map_iff in Hin as ([k1 v1] & E1 & Hin).
      cbn in E1. subst k1. now apply in_combine_l in Hin.
  - apply Nat.eqb_neq in E. split; [exact E | eauto].
Qed.
